(** * The ride-chat widget and the admin console

    A shallow embedding of [src/components/ChatPanel.tsx] (the [ChatPanel]
    component, the [ChatBox] component it renders and the [AdminPanel]
    component) and the properties of the selection cursor, the polling loop,
    the widget visibility, the message window and the admin's lists that
    follow from the code.

    React state is modelled by explicit state passing: a component's
    [useState] cells are the fields of a record, a setter is a function on
    that record, and an event handler is the state transformer its body
    denotes.  A handler is a closure over the values of the render that
    created it; where the source reads such a value ([isOpen] in
    [toggleChat]) the closure's render is an explicit argument. *)

From Stdlib Require Import ZArith List String Bool Lia.
From Stdlib Require Import Sorting.Sorted Sorting.Permutation.
Import ListNotations.

Local Open Scope string_scope.
Local Open Scope list_scope.
Local Open Scope Z_scope.

(** ** An exception-and-state monad for handler bodies

    [fetchRides] runs setters and may [throw] inside a [try]; what a setter
    wrote before the throw stays written. *)

Module Exn.

Section Monad.
Variables S E : Type.

Definition M (A : Type) : Type := S -> S * (E + A).

Definition ret {A} (a : A) : M A := fun s => (s, inr a).

Definition throw {A} (e : E) : M A := fun s => (s, inl e).

Definition bind {A B} (c : M A) (k : A -> M B) : M B :=
  fun s => match c s with
           | (s', inr a) => k a s'
           | (s', inl e) => (s', inl e)
           end.

(** a state update that cannot fail *)
Definition modify (f : S -> S) : M unit := fun s => (f s, inr tt).

(** [try { body } catch (error) { log(handler error) }]: the handler of
    this program only writes one entry to a log of type [L]. *)
Definition try_catch {L} (body : M unit) (handler : E -> L) : S -> S * list L :=
  fun s => match body s with
           | (s', inr _) => (s', [])
           | (s', inl e) => (s', [handler e])
           end.
End Monad.

Arguments ret {S E A} a.
Arguments throw {S E A} e.
Arguments bind {S E A B} c k.
Arguments modify {S E} f.
Arguments try_catch {S E L} body handler.

End Exn.

Notation "x <- c ;; k" := (Exn.bind c (fun x => k))
  (at level 61, c at next level, right associativity).
Notation "c ;;; k" := (Exn.bind c (fun _ => k))
  (at level 61, right associativity).

(** ** ChatPanel *)

Module ChatPanel.

(** [interface Ride] *)
Record Ride := {
  id : Z;
  pickupLocation : string;
  dropoffLocation : string
}.

(** The session object of [useSession]; only its presence is read. *)
Definition Session := string.

(** The three [useState] cells of the component. *)
Record State := {
  isOpen : bool;
  rides : list Ride;
  selectedRideId : option Z
}.

(** [useState(false)], [useState<Ride[]>([])], [useState<number | null>(null)] *)
Definition initial : State :=
  {| isOpen := false; rides := []; selectedRideId := None |}.

Definition setIsOpen (v : bool) (st : State) : State :=
  {| isOpen := v; rides := rides st; selectedRideId := selectedRideId st |}.

Definition setRides (v : list Ride) (st : State) : State :=
  {| isOpen := isOpen st; rides := v; selectedRideId := selectedRideId st |}.

Definition setSelectedRideId (v : option Z) (st : State) : State :=
  {| isOpen := isOpen st; rides := rides st; selectedRideId := v |}.

(** What [fetchRides] can catch. *)
Inductive Error :=
| HTTPError (status : Z)   (* new Error(`HTTP error! status: ${response.status}`) *)
| SyntaxError              (* thrown by JSON.parse *)
| TypeError.               (* a rejected fetch, or a property read on undefined *)

(** The text of a response body, seen through [JSON.parse]: the rides it
    denotes, or nothing when [JSON.parse] throws.  The parsed value is taken
    at the type the component stores it at, [Ride[]]: a body that parses to
    anything else (null, an object, an array with an entry that is not a
    ride) is not represented, and what is proved of a poll is proved of
    polls whose body is an array of rides or does not parse. *)
Record Text := {
  JSON_parse : option (list Ride)
}.

Record Response := {
  status : Z;
  text : Text
}.

(** [response.ok]: the status is in the range 200-299. *)
Definition ok (r : Response) : bool := (200 <=? status r) && (status r <=? 299).

(** How the promise of [fetch("/api/rides/inprogress")] settles. *)
Inductive FetchResult :=
| Rejected
| Resolved (response : Response).

Definition await (f : FetchResult) : Exn.M State Error Response :=
  match f with
  | Rejected => Exn.throw TypeError
  | Resolved r => Exn.ret r
  end.

(** [JSON.parse(text)], which throws a [SyntaxError] on a text that is not
    JSON. *)
Definition parse (text : Text) : Exn.M State Error (list Ride) :=
  match JSON_parse text with
  | Some data => Exn.ret data
  | None => Exn.throw SyntaxError
  end.

(** An entry of [console.error]: the label and the error. *)
Definition LogEntry : Type := string * Error.

(** [fetchRides] (lines 20-39).  The function reads no state cell, so its
    effect on the state is that of its continuation once the fetch has
    settled; [session] is the value its closure captured. *)
Definition fetchRides (session : option Session) (fetched : FetchResult)
  : State -> State * list LogEntry :=
  match session with
  | Some _ =>
      Exn.try_catch
        (response <- await fetched ;;
         let text := text response in
         if negb (ok response) then Exn.throw (HTTPError (status response))
         else
           data <- parse text ;;
           Exn.modify (setRides data) ;;;
           if (0 <? Z.of_nat (List.length data))%Z then
             match nth_error data 0 with
             | Some ride0 => Exn.modify (setSelectedRideId (Some (id ride0)))
             | None => Exn.throw TypeError
             end
           else Exn.ret tt)
        (fun error => ("Error fetching rides:", error))
  | None => fun st => (st, [])
  end.

(** A poll that fails, with the error it throws: the fetch is rejected, the
    status is not a success, or the body does not parse. *)
Inductive fails : FetchResult -> Error -> Prop :=
| fails_rejected : fails Rejected TypeError
| fails_status r : ok r = false -> fails (Resolved r) (HTTPError (status r))
| fails_parse r : ok r = true -> JSON_parse (text r) = None -> fails (Resolved r) SyntaxError.

(** [toggleChat] (lines 51-53): [setIsOpen(!isOpen)], where [isOpen] is the
    value of the render that created the handler. *)
Definition toggleChat (rendered : State) : State -> State :=
  setIsOpen (negb (isOpen rendered)).

(** *** The rendered tree (lines 55-116), reduced to what is conditional. *)

(** The value of a JSX expression [{c && <El .../>}]: nothing for [false]
    and [null], the digit for the number [0], the element otherwise. *)
Inductive Child (P : Type) :=
| Nothing
| Zero
| Element (props : P).
Arguments Nothing {P}.
Arguments Zero {P}.
Arguments Element {P} props.

Definition guard_bool {P} (c : bool) (props : P) : Child P :=
  if c then Element props else Nothing.

(** [selectedRideId && <El rideId={selectedRideId} />] *)
Definition guard_id (v : option Z) : Child Z :=
  match v with
  | None => Nothing
  | Some n => if (n =? 0)%Z then Zero else Element n
  end.

(** Truthiness of a [number | null]: [null] and [0] are falsy. *)
Definition truthy (v : option Z) : bool :=
  match v with
  | None => false
  | Some n => negb (n =? 0)%Z
  end.

(** A tab button: its key, whether it is highlighted
    ([selectedRideId === ride.id]) and the id its [onClick] selects. *)
Record Tab := {
  key : Z;
  highlighted : bool;
  selects : Z
}.

Definition same_id (v : option Z) (n : Z) : bool :=
  match v with
  | Some m => (m =? n)%Z
  | None => false
  end.

Record Panel := {
  tabs : list Tab;
  chatBox : Child Z;        (* <ChatBox rideId=... /> *)
  sendMessage : Child Z     (* <SendMessage rideId=... /> *)
}.

Record View := {
  chatButton : Child unit;  (* the floating "Chat" button *)
  panel : Child Panel       (* the open widget, with its close button *)
}.

Definition isLoggedIn (session : option Session) : bool :=
  match session with Some _ => true | None => false end.

Definition render (session : option Session) (st : State) : View :=
  {| chatButton :=
       guard_bool (isLoggedIn session && (0 <? Z.of_nat (List.length (rides st)))%Z) tt;
     panel :=
       guard_bool (isOpen st)
         {| tabs := map (fun ride =>
                           {| key := id ride;
                              highlighted := same_id (selectedRideId st) (id ride);
                              selects := id ride |}) (rides st);
            chatBox := guard_id (selectedRideId st);
            sendMessage := guard_id (selectedRideId st) |} |}.

End ChatPanel.

(** ** The message store

    The part of the Firestore client that [ChatBox] calls: a collection of
    documents, a query ordered by [createdAt] with a limit, and snapshot
    listeners.  [orderBy("createdAt")] orders ascending, documents of equal
    [createdAt] by their document id, and [limit(n)] keeps the first [n]
    documents of that order.  The store keeps times at whole microseconds. *)

Module Firestore.

(** [Timestamp]: seconds and nanoseconds, ordered as a pair. *)
Record Timestamp := {
  seconds : Z;
  nanoseconds : Z
}.

Definition ts_leb (a b : Timestamp) : bool :=
  (seconds a <? seconds b)
  || ((seconds a =? seconds b) && (nanoseconds a <=? nanoseconds b)).

Definition ts_le (a b : Timestamp) : Prop := ts_leb a b = true.

(** [DocumentData] of a message document.  [rideId] is the ride the
    message was sent to, when the sender recorded one. *)
Record DocumentData := {
  text : string;
  name : string;
  avatar : string;
  createdAt : Timestamp;
  uid : string;
  rideId : option Z
}.

(** [QueryDocumentSnapshot]: [doc.id] and [doc.data()]. *)
Record Doc := {
  doc_id : string;
  data : DocumentData
}.

(** The time a document has in the store: a [Timestamp] is kept at whole
    microseconds, further precision is rounded down. *)
Definition micros (t : Timestamp) : Timestamp :=
  {| seconds := seconds t; nanoseconds := nanoseconds t / 1000 * 1000 |}.

Definition stored (d : Doc) : Doc :=
  {| doc_id := doc_id d;
     data := {| text := text (data d);
                name := name (data d);
                avatar := avatar (data d);
                createdAt := micros (createdAt (data d));
                uid := uid (data d);
                rideId := rideId (data d) |} |}.

Definition ts_eqb (a b : Timestamp) : bool :=
  (seconds a =? seconds b) && (nanoseconds a =? nanoseconds b).

(** The order of a query with [orderBy("createdAt")]: by [createdAt], and
    for documents of the same [createdAt] by document id, both ascending.
    Document ids compare as their bytes do. *)
Definition doc_leb (a b : Doc) : bool :=
  if ts_eqb (createdAt (data a)) (createdAt (data b))
  then String.leb (doc_id a) (doc_id b)
  else ts_leb (createdAt (data a)) (createdAt (data b)).

(** [a] is not after [b] in the order of the query. *)
Definition doc_le (a b : Doc) : Prop := doc_leb a b = true.

(** The query lists [d] after [x]: the time [d] has in the store is later,
    or it is the same and [d] has the greater id. *)
Definition sorts_after (d x : Doc) : Prop :=
  doc_leb (stored d) (stored x) = false.

(** Sorting into the order of the query.  The ids of the documents of a
    collection are distinct, so no two of them tie. *)
Fixpoint insert (d : Doc) (l : list Doc) : list Doc :=
  match l with
  | [] => [d]
  | x :: xs => if doc_leb d x then d :: x :: xs else x :: insert d xs
  end.

Fixpoint orderBy_createdAt (l : list Doc) : list Doc :=
  match l with
  | [] => []
  | d :: ds => insert d (orderBy_createdAt ds)
  end.

(** [query(collection(db, path), orderBy("createdAt"), limit(n))] *)
Record Query := {
  path : string;
  limit : nat
}.

(** A registered [onSnapshot] listener; [handle] identifies it for the
    [unsubscribe] function that [onSnapshot] returns. *)
Record Listener := {
  handle : nat;
  listens : Query
}.

Record Db := {
  collection : string -> list Doc;
  listeners : list Listener;
  fresh : nat
}.

(** The documents a snapshot of [q] holds, in order, as the store has
    them. *)
Definition getDocs (db : Db) (q : Query) : list Doc :=
  firstn (limit q) (orderBy_createdAt (map stored (collection db (path q)))).

(** [onSnapshot(q, callback)]: registers a listener and returns the handle
    of its [unsubscribe]. *)
Definition onSnapshot (q : Query) (db : Db) : Db * nat :=
  ({| collection := collection db;
      listeners := listeners db ++ [{| handle := fresh db; listens := q |}];
      fresh := S (fresh db) |},
   fresh db).

Definition unsubscribe (h : nat) (db : Db) : Db :=
  {| collection := collection db;
     listeners := filter (fun l => negb (Nat.eqb (handle l) h)) (listeners db);
     fresh := fresh db |}.

Definition listening (h : nat) (db : Db) : option Query :=
  option_map listens (find (fun l => Nat.eqb (handle l) h) (listeners db)).

(** A document is appended to the collection at [p]. *)
Definition addDoc (p : string) (d : Doc) (db : Db) : Db :=
  {| collection := fun p' => if String.eqb p' p then collection db p' ++ [d]
                             else collection db p';
     listeners := listeners db;
     fresh := fresh db |}.

End Firestore.

(** ** ChatBox *)

Module ChatBox.

(** [interface MessageData]; the object is the spread of [doc.data()] with
    [id], so it also carries the document's [rideId]. *)
Record MessageData := {
  id : string;
  text : string;
  name : string;
  avatar : string;
  createdAt : Firestore.Timestamp;
  uid : string;
  rideId : option Z
}.

(** [{ ...doc.data(), id: doc.id } as MessageData] *)
Definition of_doc (doc : Firestore.Doc) : MessageData :=
  let d := Firestore.data doc in
  {| id := Firestore.doc_id doc;
     text := Firestore.text d;
     name := Firestore.name d;
     avatar := Firestore.avatar d;
     createdAt := Firestore.createdAt d;
     uid := Firestore.uid d;
     rideId := Firestore.rideId d |}.


(** The query of lines 153-157. *)
Definition q : Firestore.Query :=
  {| Firestore.path := "messages"; Firestore.limit := 10 |}.

(** The snapshot callback (lines 159-163): the array it passes to
    [setMessages], built by [forEach] and [push]. *)
Definition snapshot_messages (querySnapshot : list Firestore.Doc) : list MessageData :=
  fold_left (fun messages doc => messages ++ [of_doc doc]) querySnapshot [].

(** A mounted ChatBox: its [messages] cell and the [unsubscribe] its effect
    holds for cleanup.  The function takes no props: the [rideId] its parent
    passes is not read. *)
Record Instance := {
  messages : list MessageData;
  unsubscribe : nat
}.

(** Mount: [useState([])], then the effect with dependencies [[]] runs once. *)
Definition mount (db : Firestore.Db) : Instance * Firestore.Db :=
  let (db', h) := Firestore.onSnapshot q db in
  ({| messages := []; unsubscribe := h |}, db').

(** Unmount: the effect's cleanup, [unsubscribe()]. *)
Definition unmount (inst : Instance) (db : Firestore.Db) : Firestore.Db :=
  Firestore.unsubscribe (unsubscribe inst) db.

(** The listener fires: [setMessages(messages)]. *)
Definition deliver (querySnapshot : list Firestore.Doc) (inst : Instance) : Instance :=
  {| messages := snapshot_messages querySnapshot; unsubscribe := unsubscribe inst |}.

(** The window that a snapshot of the collection [history] yields. *)
Definition window_of (history : list Firestore.Doc) : list MessageData :=
  snapshot_messages
    (firstn 10 (Firestore.orderBy_createdAt (map Firestore.stored history))).

End ChatBox.

(** ** The mounted widget

    ChatPanel with its session, its console, its fetches in flight, its
    interval timer, its ChatBox child (when rendered) and the message store,
    for the life of one run of the polling effect.  A step is one event of
    the event loop: a timer callback, a settled fetch, a click on a rendered
    control, a new document or a snapshot delivery.  The session is the one
    the effect ran with: a change of session, which runs the effect again,
    is not among the events. *)

Module Widget.

Import ChatPanel.

(** The timer of [setInterval(fetchRides, 3000)]: when it next fires, and
    its delay; times are milliseconds since the effect ran. *)
Record Timer := {
  due : Z;
  delay : Z
}.

Record System := {
  session : option Session;
  state : State;
  console : list LogEntry;
  inflight : nat;                      (* calls of fetchRides awaiting fetch *)
  interval : option Timer;
  child : option ChatBox.Instance;     (* the ChatBox, while rendered *)
  db : Firestore.Db
}.

Inductive Event :=
| TimerFires
| FetchSettles (f : FetchResult)
| ClickChat                 (* the floating Chat button *)
| ClickClose                (* the button in the widget's header *)
| ClickTab (n : nat)        (* the n-th tab button *)
| MessageAdded (d : Firestore.Doc)
| SnapshotDelivered.

Definition view (s : System) : View := render (session s) (state s).

(** Whether a view contains the ChatBox element. *)
Definition chatBoxRendered (v : View) : bool :=
  match panel v with
  | Element p => match chatBox p with Element _ => true | _ => false end
  | _ => false
  end.

(** A call of [fetchRides]: [if (session)] it starts a fetch. *)
Definition call_fetchRides (session : option Session) (n : nat) : nat :=
  match session with Some _ => S n | None => n end.

(** The effect of lines 19-49 runs: the initial fetch, then [setInterval]. *)
Definition boot (session : option Session) (store : string -> list Firestore.Doc)
  : System :=
  {| session := session;
     state := initial;
     console := [];
     inflight := call_fetchRides session 0;
     interval := Some {| due := 3000; delay := 3000 |};
     child := None;
     db := {| Firestore.collection := store;
              Firestore.listeners := [];
              Firestore.fresh := 0 |} |}.

(** React commits a new state of ChatPanel: the ChatBox is mounted when it
    enters the tree, unmounted when it leaves it, and kept (its effect has
    no dependencies, so it does not run again) when it stays. *)
Definition commit (st' : State) (log : list LogEntry) (s : System) : System :=
  match chatBoxRendered (render (session s) st'), child s with
  | true, None =>
      let (inst, db') := ChatBox.mount (db s) in
      {| session := session s; state := st'; console := console s ++ log;
         inflight := inflight s; interval := interval s;
         child := Some inst; db := db' |}
  | false, Some inst =>
      {| session := session s; state := st'; console := console s ++ log;
         inflight := inflight s; interval := interval s;
         child := None; db := ChatBox.unmount inst (db s) |}
  | _, _ =>
      {| session := session s; state := st'; console := console s ++ log;
         inflight := inflight s; interval := interval s;
         child := child s; db := db s |}
  end.

Definition step (e : Event) (s : System) : option System :=
  match e with
  | TimerFires =>
      match interval s with
      | Some t =>
          Some {| session := session s; state := state s; console := console s;
                  inflight := call_fetchRides (session s) (inflight s);
                  interval := Some {| due := due t + delay t; delay := delay t |};
                  child := child s; db := db s |}
      | None => None
      end
  | FetchSettles f =>
      match inflight s with
      | S n =>
          let (st', log) := fetchRides (session s) f (state s) in
          let s' := commit st' log s in
          Some {| session := session s'; state := state s'; console := console s';
                  inflight := n; interval := interval s';
                  child := child s'; db := db s' |}
      | O => None
      end
  | ClickChat =>
      match chatButton (view s) with
      | Element _ => Some (commit (toggleChat (state s) (state s)) [] s)
      | _ => None
      end
  | ClickClose =>
      match panel (view s) with
      | Element _ => Some (commit (toggleChat (state s) (state s)) [] s)
      | _ => None
      end
  | ClickTab n =>
      match panel (view s) with
      | Element p =>
          match nth_error (tabs p) n with
          | Some tab => Some (commit (setSelectedRideId (Some (selects tab)) (state s)) [] s)
          | None => None
          end
      | _ => None
      end
  | MessageAdded d =>
      Some {| session := session s; state := state s; console := console s;
              inflight := inflight s; interval := interval s; child := child s;
              db := Firestore.addDoc "messages" d (db s) |}
  | SnapshotDelivered =>
      match child s with
      | Some inst =>
          match Firestore.listening (ChatBox.unsubscribe inst) (db s) with
          | Some query =>
              Some {| session := session s; state := state s; console := console s;
                      inflight := inflight s; interval := interval s;
                      child := Some (ChatBox.deliver (Firestore.getDocs (db s) query) inst);
                      db := db s |}
          | None => None
          end
      | None => None
      end
  end.

(** Running a list of events from a state. *)
Fixpoint run (es : list Event) (s : System) : option System :=
  match es with
  | [] => Some s
  | e :: es' => match step e s with
                | Some s' => run es' s'
                | None => None
                end
  end.

(** The states the widget can be in. *)
Inductive reachable : System -> Prop :=
| reach_boot : forall session store, reachable (boot session store)
| reach_step : forall s e s', reachable s -> step e s = Some s' -> reachable s'.

(** The active subscriptions: the listeners registered in the store. *)
Definition subscriptions (s : System) : list Firestore.Listener :=
  Firestore.listeners (db s).

(** The ChatBox and its subscription go together: a mounted ChatBox is in
    the tree and holds the one registered listener, on the query [ChatBox.q];
    without a ChatBox there is no listener. *)
Definition in_sync (s : System) : Prop :=
  match child s with
  | Some inst =>
      chatBoxRendered (view s) = true
      /\ subscriptions s =
         [{| Firestore.handle := ChatBox.unsubscribe inst;
             Firestore.listens := ChatBox.q |}]
  | None => chatBoxRendered (view s) = false /\ subscriptions s = []
  end.

(** The interval timer is set, with the delay of 3000 ms. *)
Definition polling (s : System) : Prop :=
  exists t, interval s = Some t /\ delay t = 3000.


End Widget.

(** ** Sample data *)

Module Samples.

Import ChatPanel.

Definition ride (n : Z) : Ride :=
  {| id := n; pickupLocation := "Airport"; dropoffLocation := "Harbour" |}.

(** A body that parses to [data], and one that does not parse. *)
Definition body (data : list Ride) : Text :=
  {| JSON_parse := Some data |}.

Definition garbled : Text :=
  {| JSON_parse := None |}.

(** A 200 response whose body parses to [data]. *)
Definition ok_with (data : list Ride) : FetchResult :=
  Resolved {| status := 200; text := body data |}.

Definition http_500 : FetchResult :=
  Resolved {| status := 500; text := body [ride 1] |}.

Definition user : option Session := Some "driver".

Definition message (doc_id : string) (n : Z) (ride_id : Z) : Firestore.Doc :=
  {| Firestore.doc_id := doc_id;
     Firestore.data :=
       {| Firestore.text := "hello";
          Firestore.name := "Sam";
          Firestore.avatar := "sam.png";
          Firestore.createdAt := {| Firestore.seconds := n; Firestore.nanoseconds := 0 |};
          Firestore.uid := "u1";
          Firestore.rideId := Some ride_id |} |}.

(** A store whose collection [messages] holds [docs]. *)
Definition store (docs : list Firestore.Doc) : string -> list Firestore.Doc :=
  fun p => if String.eqb p "messages" then docs else [].

(** Eleven messages of ride 1, created at seconds 1 to 11. *)
Definition eleven : list Firestore.Doc :=
  [message "m01" 1 1; message "m02" 2 1; message "m03" 3 1; message "m04" 4 1;
   message "m05" 5 1; message "m06" 6 1; message "m07" 7 1; message "m08" 8 1;
   message "m09" 9 1; message "m10" 10 1; message "m11" 11 1].

(** Two messages, the first sent to ride 1 and the second to ride 2. *)
Definition two_rides_talk : list Firestore.Doc :=
  [message "a" 1 1; message "b" 2 2].

(** The state the events [es] lead to from [s0] (or [s0], if one of them
    cannot happen). *)
Definition after (es : list Widget.Event) (s0 : Widget.System) : Widget.System :=
  match Widget.run es s0 with
  | Some s => s
  | None => s0
  end.

(** A closed widget that knows two rides. *)
Definition closed_two : Widget.System :=
  {| Widget.session := user;
     Widget.state := {| isOpen := false; rides := [ride 1; ride 2];
                        selectedRideId := Some 1 |};
     Widget.console := [];
     Widget.inflight := 0;
     Widget.interval := Some {| Widget.due := 3000; Widget.delay := 3000 |};
     Widget.child := None;
     Widget.db := {| Firestore.collection := store two_rides_talk;
                     Firestore.listeners := [];
                     Firestore.fresh := 0 |} |}.

(** The same widget, open on ride 1. *)
Definition open_two : Widget.System :=
  {| Widget.session := user;
     Widget.state := {| isOpen := true; rides := [ride 1; ride 2];
                        selectedRideId := Some 1 |};
     Widget.console := [];
     Widget.inflight := 0;
     Widget.interval := Some {| Widget.due := 3000; Widget.delay := 3000 |};
     Widget.child := Some {| ChatBox.messages := []; ChatBox.unsubscribe := 0 |};
     Widget.db := {| Firestore.collection := store two_rides_talk;
                     Firestore.listeners :=
                       [{| Firestore.handle := 0; Firestore.listens := ChatBox.q |}];
                     Firestore.fresh := 1 |} |}.

(** A poll that returns [data], the widget opened, a snapshot delivered. *)
Definition load_open_deliver (data : list Ride) : list Widget.Event :=
  [Widget.FetchSettles (ok_with data); Widget.ClickChat; Widget.SnapshotDelivered].


End Samples.


From Stdlib Require Import Ascii.

(** ** AdminPanel

    The admin console of the same file (lines 180-600): the lists of
    drivers, users and rides, the selection of a driver, the panel shown and
    the admin's identity.  Writes to the console are left out: no state cell
    depends on them.  A handler that awaits the network takes the way its
    request settles as an argument, and the render it was created in where
    it reads a state cell through its closure. *)

Module AdminPanel.

(** A JSON number the code never computes with, kept as its literal. *)
Record JsNumber := {
  literal : string
}.

(** [interface Driver] *)
Module Driver.
Record t := {
  id : Z;
  name : string;
  email : string;
  photoUrl : option string;
  carType : string;
  licensePlate : string;
  phone : option string;
  carImageUrl : option string;
  password : string
}.
End Driver.

(** [interface User] *)
Module User.
Record t := {
  id : Z;
  name : string;
  email : string;
  verified : bool
}.
End User.

(** [interface Ride]; the optional [driver] object is kept as its [phone]. *)
Module Ride.
Record Customer := {
  name : string;
  phone : string
}.

Record t := {
  id : Z;
  status : string;
  pickupLocation : string;
  dropoffLocation : string;
  scheduledPickupTime : string;
  fare : JsNumber;
  user : Customer;
  driver : option string
}.
End Ride.

(** The [useState] cells of the component (lines 224-234). *)
Record State := {
  drivers : list Driver.t;
  users : list User.t;
  rides : list Ride.t;
  selectedDriverId : option Z;
  selectedUserId : option Z;
  currentPanel : string;
  adminName : string;
  adminId : option Z;
  loadingDrivers : bool;
  loadingUsers : bool;
  loadingRides : bool
}.

Definition initial : State :=
  {| drivers := []; users := []; rides := [];
     selectedDriverId := None; selectedUserId := None;
     currentPanel := "users"; adminName := "Admin"; adminId := None;
     loadingDrivers := true; loadingUsers := true; loadingRides := true |}.

Definition setDrivers (v : list Driver.t) (st : State) : State :=
  {| drivers := v;
     users := users st;
     rides := rides st;
     selectedDriverId := selectedDriverId st;
     selectedUserId := selectedUserId st;
     currentPanel := currentPanel st;
     adminName := adminName st;
     adminId := adminId st;
     loadingDrivers := loadingDrivers st;
     loadingUsers := loadingUsers st;
     loadingRides := loadingRides st |}.

Definition setUsers (v : list User.t) (st : State) : State :=
  {| drivers := drivers st;
     users := v;
     rides := rides st;
     selectedDriverId := selectedDriverId st;
     selectedUserId := selectedUserId st;
     currentPanel := currentPanel st;
     adminName := adminName st;
     adminId := adminId st;
     loadingDrivers := loadingDrivers st;
     loadingUsers := loadingUsers st;
     loadingRides := loadingRides st |}.

Definition setRides (v : list Ride.t) (st : State) : State :=
  {| drivers := drivers st;
     users := users st;
     rides := v;
     selectedDriverId := selectedDriverId st;
     selectedUserId := selectedUserId st;
     currentPanel := currentPanel st;
     adminName := adminName st;
     adminId := adminId st;
     loadingDrivers := loadingDrivers st;
     loadingUsers := loadingUsers st;
     loadingRides := loadingRides st |}.

Definition setSelectedDriverId (v : option Z) (st : State) : State :=
  {| drivers := drivers st;
     users := users st;
     rides := rides st;
     selectedDriverId := v;
     selectedUserId := selectedUserId st;
     currentPanel := currentPanel st;
     adminName := adminName st;
     adminId := adminId st;
     loadingDrivers := loadingDrivers st;
     loadingUsers := loadingUsers st;
     loadingRides := loadingRides st |}.

Definition setSelectedUserId (v : option Z) (st : State) : State :=
  {| drivers := drivers st;
     users := users st;
     rides := rides st;
     selectedDriverId := selectedDriverId st;
     selectedUserId := v;
     currentPanel := currentPanel st;
     adminName := adminName st;
     adminId := adminId st;
     loadingDrivers := loadingDrivers st;
     loadingUsers := loadingUsers st;
     loadingRides := loadingRides st |}.

Definition setCurrentPanel (v : string) (st : State) : State :=
  {| drivers := drivers st;
     users := users st;
     rides := rides st;
     selectedDriverId := selectedDriverId st;
     selectedUserId := selectedUserId st;
     currentPanel := v;
     adminName := adminName st;
     adminId := adminId st;
     loadingDrivers := loadingDrivers st;
     loadingUsers := loadingUsers st;
     loadingRides := loadingRides st |}.

Definition setAdminName (v : string) (st : State) : State :=
  {| drivers := drivers st;
     users := users st;
     rides := rides st;
     selectedDriverId := selectedDriverId st;
     selectedUserId := selectedUserId st;
     currentPanel := currentPanel st;
     adminName := v;
     adminId := adminId st;
     loadingDrivers := loadingDrivers st;
     loadingUsers := loadingUsers st;
     loadingRides := loadingRides st |}.

Definition setAdminId (v : option Z) (st : State) : State :=
  {| drivers := drivers st;
     users := users st;
     rides := rides st;
     selectedDriverId := selectedDriverId st;
     selectedUserId := selectedUserId st;
     currentPanel := currentPanel st;
     adminName := adminName st;
     adminId := v;
     loadingDrivers := loadingDrivers st;
     loadingUsers := loadingUsers st;
     loadingRides := loadingRides st |}.

Definition setLoadingDrivers (v : bool) (st : State) : State :=
  {| drivers := drivers st;
     users := users st;
     rides := rides st;
     selectedDriverId := selectedDriverId st;
     selectedUserId := selectedUserId st;
     currentPanel := currentPanel st;
     adminName := adminName st;
     adminId := adminId st;
     loadingDrivers := v;
     loadingUsers := loadingUsers st;
     loadingRides := loadingRides st |}.

Definition setLoadingUsers (v : bool) (st : State) : State :=
  {| drivers := drivers st;
     users := users st;
     rides := rides st;
     selectedDriverId := selectedDriverId st;
     selectedUserId := selectedUserId st;
     currentPanel := currentPanel st;
     adminName := adminName st;
     adminId := adminId st;
     loadingDrivers := loadingDrivers st;
     loadingUsers := v;
     loadingRides := loadingRides st |}.

Definition setLoadingRides (v : bool) (st : State) : State :=
  {| drivers := drivers st;
     users := users st;
     rides := rides st;
     selectedDriverId := selectedDriverId st;
     selectedUserId := selectedUserId st;
     currentPanel := currentPanel st;
     adminName := adminName st;
     adminId := adminId st;
     loadingDrivers := loadingDrivers st;
     loadingUsers := loadingUsers st;
     loadingRides := v |}.

Inductive Error :=
| TypeError      (* a rejected fetch *)
| SyntaxError    (* a body or a location that is not JSON *)
| AxiosError.    (* a failed axios request *)

(** A response of [fetch]: its status, and what [response.json()] yields at
    the type the code reads it at (nothing when the body is not JSON). *)
Record Response (A : Type) := {
  status : Z;
  json : option A
}.
Arguments status {A} r.
Arguments json {A} r.

Definition ok {A} (r : Response A) : bool :=
  (200 <=? status r) && (status r <=? 299).

Inductive Fetched (A : Type) :=
| Rejected
| Resolved (response : Response A).
Arguments Rejected {A}.
Arguments Resolved {A} response.

Definition M : Type -> Type := Exn.M State Error.

Definition await {A} (f : Fetched A) : M (Response A) :=
  match f with
  | Rejected => Exn.throw TypeError
  | Resolved r => Exn.ret r
  end.

(** [await response.json()] *)
Definition await_json {A} (r : Response A) : M A :=
  match json r with
  | Some data => Exn.ret data
  | None => Exn.throw SyntaxError
  end.

(** [try { body } catch (error) { console.error(...) } finally { final }]:
    the handler writes to the console only. *)
Definition try_catch_finally (body : M unit) (final : State -> State)
  : State -> State :=
  fun st => final (fst (body st)).

(** [try { body } catch (error) { console.error(...) }] *)
Definition try_catch (body : M unit) : State -> State :=
  fun st => fst (body st).

(** [fetchDrivers] (lines 263-278) *)
Definition fetchDrivers (fetched : Fetched (list Driver.t)) : State -> State :=
  try_catch_finally
    (Exn.modify (setLoadingDrivers true) ;;;
     response <- await fetched ;;
     if ok response then
       (data <- await_json response ;;
        Exn.modify (setDrivers data))
     else Exn.ret tt)
    (setLoadingDrivers false).

(** [Array.prototype.sort(compare)]: a stable sort; an element stays before
    the elements after it that do not compare smaller. *)
Fixpoint sort_insert {A} (compare : A -> A -> Z) (x : A) (l : list A) : list A :=
  match l with
  | [] => [x]
  | y :: ys => if compare x y <=? 0 then x :: y :: ys
               else y :: sort_insert compare x ys
  end.

Fixpoint sort {A} (compare : A -> A -> Z) (l : list A) : list A :=
  match l with
  | [] => []
  | x :: xs => sort_insert compare x (sort compare xs)
  end.

(** [Number(b)] on a boolean *)
Definition Number (b : bool) : Z := if b then 1 else 0.

(** [(a, b) => Number(a.verified) - Number(b.verified)] *)
Definition by_verified (a b : User.t) : Z :=
  Number (User.verified a) - Number (User.verified b).

(** [fetchUsers] (lines 280-296) *)
Definition fetchUsers (fetched : Fetched (list User.t)) : State -> State :=
  try_catch_finally
    (Exn.modify (setLoadingUsers true) ;;;
     response <- await fetched ;;
     if ok response then
       (data <- await_json response ;;
        let sortedUsers := sort by_verified data in
        Exn.modify (setUsers sortedUsers))
     else Exn.ret tt)
    (setLoadingUsers false).

(** [reverseGeocode] (lines 252-260): the address of the response, or the
    empty string when the request fails; it never throws. *)
Definition reverseGeocode (answer : option string) : string :=
  match answer with
  | Some address => address
  | None => ""
  end.

(** [["Scheduled", "InProgress", "Requested"].includes(ride.status)] *)
Definition active (ride : Ride.t) : bool :=
  existsb (fun s => String.eqb s (Ride.status ride))
          ["Scheduled"; "InProgress"; "Requested"].

Inductive Leg := Pickup | Dropoff.

(** [{ ...ride, pickupLocation: pickupAddress, dropoffLocation: dropoffAddress }] *)
Definition with_addresses (ride : Ride.t) (pickupAddress dropoffAddress : string)
  : Ride.t :=
  {| Ride.id := Ride.id ride;
     Ride.status := Ride.status ride;
     Ride.pickupLocation := pickupAddress;
     Ride.dropoffLocation := dropoffAddress;
     Ride.scheduledPickupTime := Ride.scheduledPickupTime ride;
     Ride.fare := Ride.fare ride;
     Ride.user := Ride.user ride;
     Ride.driver := Ride.driver ride |}.

Section Geocoding.

(** What [JSON.parse] makes of a location (its [lat] and [lng]), or nothing
    when the callback cannot read it (the text is not JSON, or is the JSON
    [null]); and the answers of the geocoding service, by the position of
    the ride among the active ones and the leg asked for. *)
Variable LatLng : Type.
Variable JSON_parse : string -> option LatLng.
Variable answers : nat -> Leg -> LatLng -> option string.

(** Both locations of a ride parse. *)
Definition parses (ride : Ride.t) : bool :=
  match JSON_parse (Ride.pickupLocation ride), JSON_parse (Ride.dropoffLocation ride) with
  | Some _, Some _ => true
  | _, _ => false
  end.

(** The callback of [map] (lines 309-325) for the ride at position [n]. *)
Definition geocoded (n : nat) (ride : Ride.t) : M Ride.t :=
  match JSON_parse (Ride.pickupLocation ride) with
  | None => Exn.throw SyntaxError
  | Some pickupLocation =>
      match JSON_parse (Ride.dropoffLocation ride) with
      | None => Exn.throw SyntaxError
      | Some dropoffLocation =>
          let pickupAddress := reverseGeocode (answers n Pickup pickupLocation) in
          let dropoffAddress := reverseGeocode (answers n Dropoff dropoffLocation) in
          Exn.ret (with_addresses ride pickupAddress dropoffAddress)
      end
  end.

(** [result] is what the callback makes of the ride at position [n]. *)
Definition addressed (n : nat) (ride result : Ride.t) : Prop :=
  exists pickup dropoff,
    JSON_parse (Ride.pickupLocation ride) = Some pickup
    /\ JSON_parse (Ride.dropoffLocation ride) = Some dropoff
    /\ result = with_addresses ride
                  (reverseGeocode (answers n Pickup pickup))
                  (reverseGeocode (answers n Dropoff dropoff)).

(** [Promise.all(jobs.map(callback))]: the results in the order of the
    jobs, or the rejection of a job. *)
Fixpoint Promise_all_map (n : nat) (jobs : list Ride.t) : M (list Ride.t) :=
  match jobs with
  | [] => Exn.ret []
  | ride :: rest =>
      r <- geocoded n ride ;;
      rs <- Promise_all_map (S n) rest ;;
      Exn.ret (r :: rs)
  end.

(** [fetchRides] (lines 298-336) *)
Definition fetchRides (fetched : Fetched (list Ride.t)) : State -> State :=
  try_catch_finally
    (Exn.modify (setLoadingRides true) ;;;
     response <- await fetched ;;
     if ok response then
       (data <- await_json response ;;
        filteredRides <- Promise_all_map 0 (filter active data) ;;
        Exn.modify (setRides filteredRides))
     else Exn.ret tt)
    (setLoadingRides false).

End Geocoding.

(** The data of the response of [/api/admin/fetch-admin]. *)
Record AdminData := {
  admin_name : string;
  admin_id : Z
}.

(** [fetchAdminDetails] (lines 338-353); axios rejects when the request
    fails, [None] here. *)
Definition fetchAdminDetails (answer : option AdminData) : State -> State :=
  try_catch
    (adminData <- (match answer with
                   | Some d => Exn.ret d
                   | None => Exn.throw AxiosError
                   end) ;;
     Exn.modify (setAdminName (admin_name adminData)) ;;;
     Exn.modify (setAdminId (Some (admin_id adminData)))).

(** [prevId === id ? null : id] *)
Definition toggled (id : Z) (prevId : option Z) : option Z :=
  match prevId with
  | Some p => if p =? id then None else Some id
  | None => Some id
  end.

(** [handleCheckboxChange] (lines 367-369) *)
Definition handleCheckboxChange (id : Z) (st : State) : State :=
  setSelectedDriverId (toggled id (selectedDriverId st)) st.

(** [handleUserCheckboxChange] (lines 371-373) *)
Definition handleUserCheckboxChange (id : Z) (st : State) : State :=
  setSelectedUserId (toggled id (selectedUserId st)) st.

(** [driver.id !== selectedDriverId] *)
Definition differs (v : option Z) (n : Z) : bool :=
  match v with
  | Some m => negb (n =? m)
  | None => true
  end.

(** [handleDelete] (lines 375-398): [rendered] is the render whose
    [drivers] and [selectedDriverId] the handler reads, [confirmed] the
    answer to [window.confirm]. *)
Definition handleDelete (rendered : State) (confirmed : bool) (fetched : Fetched unit)
  : State -> State :=
  match selectedDriverId rendered with
  | Some _ =>
      if negb confirmed then fun st => st
      else
        try_catch
          (response <- await fetched ;;
           if ok response then
             (Exn.modify
                (setDrivers (filter (fun driver =>
                                       differs (selectedDriverId rendered) (Driver.id driver))
                                    (drivers rendered))) ;;;
              Exn.modify (setSelectedDriverId None))
           else Exn.ret tt)
  | None => fun st => st
  end.

(** [handleCancelRide] (lines 406-421): [rendered] is the render whose
    [rides] the handler reads. *)
Definition handleCancelRide (rendered : State) (rideId : Z) (fetched : Fetched unit)
  : State -> State :=
  try_catch
    (response <- await fetched ;;
     if ok response then
       Exn.modify
         (setRides (filter (fun ride => negb (Ride.id ride =? rideId)) (rides rendered)))
     else Exn.ret tt).

(** [String.prototype.split] with a separator of one character. *)
Fixpoint split (sep : ascii) (s : string) : list string :=
  match s with
  | EmptyString => [EmptyString]
  | String c rest =>
      if Ascii.eqb c sep then EmptyString :: split sep rest
      else match split sep rest with
           | w :: ws => String c w :: ws
           | [] => [String c EmptyString]
           end
  end.

(** [Array.prototype.join] *)
Fixpoint join (sep : string) (l : list string) : string :=
  match l with
  | [] => EmptyString
  | [w] => w
  | w :: ws => w ++ sep ++ join sep ws
  end.

(** The name in the header (line 588): [adminName.split(" ")[0]]. *)
Definition header_name (st : State) : string :=
  hd EmptyString (split " "%char (adminName st)).

(** The Dashboard button is rendered (line 578):
    [adminId === 2 || adminId === 3]. *)
Definition dashboardButton (st : State) : bool :=
  match adminId st with
  | Some n => (n =? 2) || (n =? 3)
  | None => false
  end.

(** The children of [<main>] (lines 592-595). *)
Inductive Main := DriversPanel | UsersPanel | RidesPanel | DashboardPanel.

Definition main (st : State) : list Main :=
  (if String.eqb (currentPanel st) "drivers" then [DriversPanel] else [])
  ++ (if String.eqb (currentPanel st) "users" then [UsersPanel] else [])
  ++ (if String.eqb (currentPanel st) "rides" then [RidesPanel] else [])
  ++ (if String.eqb (currentPanel st) "dashboard" then [DashboardPanel] else []).

(** Two states agree on the cells that decide what the header and
    [<main>] show. *)
Definition same_nav (st st' : State) : Prop :=
  currentPanel st' = currentPanel st /\ adminId st' = adminId st.

(** A row of the drivers panel (lines 430-462): its key, whether its
    checkbox is checked and whether it shows Modify and Delete, both
    [selectedDriverId === driver.id]. *)
Record DriverRow := {
  row_key : Z;
  checked : bool;
  buttons : bool
}.

Definition selects (v : option Z) (n : Z) : bool :=
  match v with
  | Some m => m =? n
  | None => false
  end.

(** [renderDriversPanel]: nothing to click while loading. *)
Definition driverRows (st : State) : list DriverRow :=
  if loadingDrivers st then []
  else map (fun driver =>
              {| row_key := Driver.id driver;
                 checked := selects (selectedDriverId st) (Driver.id driver);
                 buttons := selects (selectedDriverId st) (Driver.id driver) |})
           (drivers st).

(** [renderRidesPanel]: the rides that show a Cancel button. *)
Definition rideCards (st : State) : list Ride.t :=
  if loadingRides st then [] else rides st.

End AdminPanel.

(** ** The mounted admin console

    AdminPanel with its requests in flight, for the life of the component.
    The effect of lines 262-365 runs once: it starts the four fetches and
    sets the interval that fetches the rides again. *)

Module Admin.

Import AdminPanel.

Section Console.

Variable LatLng : Type.
Variable JSON_parse : string -> option LatLng.

Record System := {
  state : State;
  driversPending : bool;          (* fetchDrivers awaits its response *)
  usersPending : bool;
  adminPending : bool;
  ridesInFlight : nat;            (* calls of fetchRides in flight *)
  deletes : list State;           (* calls of handleDelete in flight: their renders *)
  cancels : list (State * Z)      (* calls of handleCancelRide: render and ride *)
}.

Inductive Event :=
| DriversSettle (f : Fetched (list Driver.t))
| UsersSettle (f : Fetched (list User.t))
| AdminSettle (answer : option AdminData)
| TimerFires
| RidesSettle (f : Fetched (list Ride.t)) (answers : nat -> Leg -> LatLng -> option string)
| ClickNav (p : string)          (* a button of the header *)
| ClickCheckbox (n : nat)        (* the checkbox of the n-th driver row *)
| ClickDelete (n : nat) (confirmed : bool)
| DeleteSettle (k : nat) (f : Fetched unit)
| ClickCancel (n : nat)          (* Cancel Ride on the n-th card *)
| CancelSettle (k : nat) (f : Fetched unit).

Definition boot : System :=
  {| state := initial;
     driversPending := true; usersPending := true; adminPending := true;
     ridesInFlight := 1;
     deletes := []; cancels := [] |}.

Definition with_state (st : State) (s : System) : System :=
  {| state := st;
     driversPending := driversPending s; usersPending := usersPending s;
     adminPending := adminPending s; ridesInFlight := ridesInFlight s;
     deletes := deletes s; cancels := cancels s |}.

Fixpoint drop_nth {A} (k : nat) (l : list A) : list A :=
  match l, k with
  | [], _ => []
  | _ :: xs, O => xs
  | x :: xs, S k' => x :: drop_nth k' xs
  end.

(** The header has a button for a panel. *)
Definition navButton (p : string) (st : State) : bool :=
  String.eqb p "rides" || String.eqb p "drivers" || String.eqb p "users"
  || (String.eqb p "dashboard" && dashboardButton st).

Definition shows (m : Main) (st : State) : bool :=
  existsb (fun m' => match m, m' with
                     | DriversPanel, DriversPanel | UsersPanel, UsersPanel
                     | RidesPanel, RidesPanel | DashboardPanel, DashboardPanel => true
                     | _, _ => false
                     end) (main st).

Definition step (e : Event) (s : System) : option System :=
  let st := state s in
  match e with
  | DriversSettle f =>
      if driversPending s then
        Some {| state := fetchDrivers f st;
                driversPending := false; usersPending := usersPending s;
                adminPending := adminPending s; ridesInFlight := ridesInFlight s;
                deletes := deletes s; cancels := cancels s |}
      else None
  | UsersSettle f =>
      if usersPending s then
        Some {| state := fetchUsers f st;
                driversPending := driversPending s; usersPending := false;
                adminPending := adminPending s; ridesInFlight := ridesInFlight s;
                deletes := deletes s; cancels := cancels s |}
      else None
  | AdminSettle answer =>
      if adminPending s then
        Some {| state := fetchAdminDetails answer st;
                driversPending := driversPending s; usersPending := usersPending s;
                adminPending := false; ridesInFlight := ridesInFlight s;
                deletes := deletes s; cancels := cancels s |}
      else None
  | TimerFires =>
      Some {| state := setLoadingRides true st;
              driversPending := driversPending s; usersPending := usersPending s;
              adminPending := adminPending s; ridesInFlight := S (ridesInFlight s);
              deletes := deletes s; cancels := cancels s |}
  | RidesSettle f answers =>
      match ridesInFlight s with
      | S n =>
          Some {| state := fetchRides LatLng JSON_parse answers f st;
                  driversPending := driversPending s; usersPending := usersPending s;
                  adminPending := adminPending s; ridesInFlight := n;
                  deletes := deletes s; cancels := cancels s |}
      | O => None
      end
  | ClickNav p =>
      if navButton p st then Some (with_state (setCurrentPanel p st) s) else None
  | ClickCheckbox n =>
      if shows DriversPanel st then
        match nth_error (driverRows st) n with
        | Some row => Some (with_state (handleCheckboxChange (row_key row) st) s)
        | None => None
        end
      else None
  | ClickDelete n confirmed =>
      if shows DriversPanel st then
        match nth_error (driverRows st) n with
        | Some row =>
            if buttons row then
              Some {| state := st;
                      driversPending := driversPending s; usersPending := usersPending s;
                      adminPending := adminPending s; ridesInFlight := ridesInFlight s;
                      deletes := if confirmed then deletes s ++ [st] else deletes s;
                      cancels := cancels s |}
            else None
        | None => None
        end
      else None
  | DeleteSettle k f =>
      match nth_error (deletes s) k with
      | Some rendered =>
          Some {| state := handleDelete rendered true f st;
                  driversPending := driversPending s; usersPending := usersPending s;
                  adminPending := adminPending s; ridesInFlight := ridesInFlight s;
                  deletes := drop_nth k (deletes s); cancels := cancels s |}
      | None => None
      end
  | ClickCancel n =>
      if shows RidesPanel st then
        match nth_error (rideCards st) n with
        | Some ride =>
            Some {| state := st;
                    driversPending := driversPending s; usersPending := usersPending s;
                    adminPending := adminPending s; ridesInFlight := ridesInFlight s;
                    deletes := deletes s;
                    cancels := cancels s ++ [(st, Ride.id ride)] |}
        | None => None
        end
      else None
  | CancelSettle k f =>
      match nth_error (cancels s) k with
      | Some (rendered, rideId) =>
          Some {| state := handleCancelRide rendered rideId f st;
                  driversPending := driversPending s; usersPending := usersPending s;
                  adminPending := adminPending s; ridesInFlight := ridesInFlight s;
                  deletes := deletes s; cancels := drop_nth k (cancels s) |}
      | None => None
      end
  end.

Inductive reachable : System -> Prop :=
| reach_boot : reachable boot
| reach_step : forall s e s', reachable s -> step e s = Some s' -> reachable s'.

Fixpoint run (es : list Event) (s : System) : option System :=
  match es with
  | [] => Some s
  | e :: es' => match step e s with
                | Some s' => run es' s'
                | None => None
                end
  end.

End Console.

End Admin.

(** ** Sample data of the admin console *)

Module AdminSamples.

Import AdminPanel.

Definition user (n : Z) (name : string) (verified : bool) : User.t :=
  {| User.id := n; User.name := name; User.email := "user@example.com";
     User.verified := verified |}.

Definition driver (n : Z) (name : string) : Driver.t :=
  {| Driver.id := n; Driver.name := name; Driver.email := "driver@example.com";
     Driver.photoUrl := None; Driver.carType := "Sedan";
     Driver.licensePlate := "AB1234"; Driver.phone := None;
     Driver.carImageUrl := None; Driver.password := "secret" |}.

Definition trip (n : Z) (status pickup dropoff : string) : Ride.t :=
  {| Ride.id := n; Ride.status := status;
     Ride.pickupLocation := pickup; Ride.dropoffLocation := dropoff;
     Ride.scheduledPickupTime := "2024-05-01T10:00:00Z";
     Ride.fare := {| literal := "12.5" |};
     Ride.user := {| Ride.name := "Ann"; Ride.phone := "555-0100" |};
     Ride.driver := None |}.

(** A parser that takes every text but the empty one as a location. *)
Definition parse_location (text : string) : option string :=
  if String.eqb text "" then None else Some text.

(** A geocoder that answers for pickups only. *)
Definition pickups_only (n : nat) (leg : Leg) (place : string) : option string :=
  match leg with
  | Pickup => Some ("near " ++ place)%string
  | Dropoff => None
  end.

Definition ok_response {A} (data : A) : Fetched A :=
  Resolved {| status := 200; json := Some data |}.

Definition done : Fetched unit :=
  Resolved {| status := 200; json := None |}.

(** The drivers panel with three drivers loaded. *)
Definition three_drivers : list Driver.t :=
  [driver 1 "Al"; driver 2 "Bo"; driver 3 "Cy"].

Definition drivers_loaded : Admin.System :=
  {| Admin.state := setCurrentPanel "drivers"
                      (setLoadingDrivers false (setDrivers three_drivers initial));
     Admin.driversPending := false; Admin.usersPending := true;
     Admin.adminPending := true; Admin.ridesInFlight := 1;
     Admin.deletes := []; Admin.cancels := [] |}.

(** The rides panel with two rides loaded and a poll in flight. *)
Definition rides_loaded : Admin.System :=
  {| Admin.state := setCurrentPanel "rides"
                      (setLoadingRides false
                         (setRides [trip 1 "InProgress" "Bay St" "Hill Rd";
                                    trip 2 "Requested" "Pier 4" "Fort Lane"] initial));
     Admin.driversPending := false; Admin.usersPending := false;
     Admin.adminPending := false; Admin.ridesInFlight := 1;
     Admin.deletes := []; Admin.cancels := [] |}.

(** The state the events [es] lead to from the mount of the console. *)
Definition after (es : list (Admin.Event string)) : Admin.System :=
  match Admin.run string parse_location es Admin.boot with
  | Some s => s
  | None => Admin.boot
  end.

Definition ada : AdminData :=
  {| admin_name := "Ada Lovelace"; admin_id := 2 |}.

End AdminSamples.
(** * Properties of ChatPanel *)

Module ChatPanelFacts.

Import ChatPanel.

(** A poll that succeeds: the state after it. *)
Lemma fetchRides_success (u : Session) (r : Response) (data : list Ride) (st : State) :
  ok r = true ->
  JSON_parse (text r) = Some data ->
  fetchRides (Some u) (Resolved r) st =
  (match data with
   | [] => setRides [] st
   | ride0 :: _ => setSelectedRideId (Some (id ride0)) (setRides data st)
   end, []).
Proof.
  intros Hok Hparse.
  unfold fetchRides, Exn.try_catch, Exn.bind, await, parse, Exn.ret.
  rewrite Hok, Hparse. simpl.
  destruct data as [| ride0 rest]; reflexivity.
Qed.

Lemma fetchRides_failure (u : Session) (f : FetchResult) (e : Error) (st : State) :
  fails f e ->
  fetchRides (Some u) f st = (st, [("Error fetching rides:", e)]).
Proof.
  intros H.
  unfold fetchRides, Exn.try_catch, Exn.bind, await, parse, Exn.ret, Exn.throw.
  destruct H as [| r Hok | r Hok Hparse]; simpl.
  - reflexivity.
  - rewrite Hok. reflexivity.
  - rewrite Hok, Hparse. reflexivity.
Qed.

Example garbled_body_is_logged (st : State) :
  fetchRides Samples.user (Resolved {| status := 200; text := Samples.garbled |}) st
  = (st, [("Error fetching rides:", SyntaxError)]).
Proof.
  apply fetchRides_failure, fails_parse; reflexivity.
Qed.

(** Without a session [fetchRides] does nothing. *)
Lemma fetchRides_no_session (f : FetchResult) (st : State) :
  fetchRides None f st = (st, []).
Proof. reflexivity. Qed.

End ChatPanelFacts.

Module Selection.

Import ChatPanel ChatPanelFacts Samples.

(** C8.  After a successful poll the RideSet is the response; when the
    response is non-empty SelectedRideId is the id of its first ride,
    whatever it was before; when the response is empty the RideSet is empty
    and SelectedRideId keeps its previous value. *)
Theorem poll_overrides_selection
  (u : Session) (r : Response) (data : list Ride) (st : State) :
  ok r = true ->
  JSON_parse (text r) = Some data ->
  let st' := fst (fetchRides (Some u) (Resolved r) st) in
  rides st' = data
  /\ (forall ride0 rest, data = ride0 :: rest -> selectedRideId st' = Some (id ride0))
  /\ (data = [] -> rides st' = [] /\ selectedRideId st' = selectedRideId st).
Proof.
  intros Hok Hparse st'. subst st'.
  rewrite (fetchRides_success u r data st Hok Hparse).
  destruct data as [| ride0 rest]; simpl.
  - repeat split; intros; congruence.
  - repeat split; intros; congruence.
Qed.

Lemma poll_overrides_selection_witness :
  let st := {| isOpen := true; rides := [ride 1; ride 2]; selectedRideId := Some 2 |} in
  let st' := fst (fetchRides user (ok_with [ride 3; ride 2]) st) in
  rides st' = [ride 3; ride 2]
  /\ (forall ride0 rest, [ride 3; ride 2] = ride0 :: rest ->
      selectedRideId st' = Some (id ride0))
  /\ ([ride 3; ride 2] = [] -> rides st' = [] /\ selectedRideId st' = selectedRideId st).
Proof.
  exact (poll_overrides_selection "driver"
           {| status := 200; text := body [ride 3; ride 2] |}
           [ride 3; ride 2]
           {| isOpen := true; rides := [ride 1; ride 2]; selectedRideId := Some 2 |}
           eq_refl eq_refl).
Defined.

(** C1, as stated, fails: ride 2 is selected and is still in the polled
    RideSet, yet the poll moves the selection to ride 1.  So it goes in the
    widget: the first poll returns rides 1 and 2, the user opens the widget
    and clicks the tab of ride 2, and the next poll, which returns rides 1,
    2 and 3, selects ride 1. *)
Lemma selection_not_stable :
  let st := {| isOpen := true; rides := [ride 1; ride 2]; selectedRideId := Some 2 |} in
  let data := [ride 1; ride 2; ride 3] in
  let st' := fst (fetchRides user (ok_with data) st) in
  (selectedRideId st = Some 2
   /\ In 2 (map id (rides st'))
   /\ selectedRideId st' = Some 1
   /\ selectedRideId st' <> selectedRideId st)
  /\ exists s2 s3,
       Widget.run [Widget.FetchSettles (ok_with [ride 1; ride 2]);
                   Widget.ClickChat; Widget.ClickTab 1]
                  (Widget.boot user (store [])) = Some s2
       /\ selectedRideId (Widget.state s2) = Some 2
       /\ Widget.run [Widget.TimerFires; Widget.FetchSettles (ok_with data)] s2
          = Some s3
       /\ rides (Widget.state s3) = data
       /\ selectedRideId (Widget.state s3) = Some 1.
Proof.
  cbv zeta. split.
  - vm_compute. repeat split; auto. discriminate.
  - eexists. eexists.
    split; [vm_compute; reflexivity |].
    split; [reflexivity |].
    split; [vm_compute; reflexivity |].
    split; reflexivity.
Qed.

(** C1, amended.  After a successful poll with a non-empty response
    SelectedRideId is the id of the first ride of the new RideSet; so a
    selection that was that id before the poll is unchanged by it. *)
Theorem selection_stable_at_head
  (u : Session) (r : Response) (ride0 : Ride) (rest : list Ride) (st : State) :
  ok r = true ->
  JSON_parse (text r) = Some (ride0 :: rest) ->
  let st' := fst (fetchRides (Some u) (Resolved r) st) in
  selectedRideId st' = Some (id ride0)
  /\ (selectedRideId st = Some (id ride0) -> selectedRideId st' = selectedRideId st).
Proof.
  intros Hok Hparse st'. subst st'.
  rewrite (fetchRides_success u r _ st Hok Hparse). simpl.
  split; [reflexivity | congruence].
Qed.

Lemma selection_stable_at_head_witness :
  let st := {| isOpen := true; rides := [ride 2; ride 1]; selectedRideId := Some 2 |} in
  let st' := fst (fetchRides user (ok_with [ride 2; ride 1; ride 3]) st) in
  selectedRideId st' = Some 2
  /\ (selectedRideId st = Some 2 -> selectedRideId st' = selectedRideId st).
Proof.
  exact (selection_stable_at_head "driver"
           {| status := 200; text := body [ride 2; ride 1; ride 3] |}
           (ride 2) [ride 1; ride 3]
           {| isOpen := true; rides := [ride 2; ride 1]; selectedRideId := Some 2 |}
           eq_refl eq_refl).
Defined.

(** C4, as stated, fails: ride 2 is selected, the poll returns no ride, and
    the selection stays 2, an id that is not in the (empty) RideSet. *)
Lemma stale_selection_after_empty_poll :
  let st := {| isOpen := false; rides := [ride 1; ride 2]; selectedRideId := Some 2 |} in
  let st' := fst (fetchRides user (ok_with []) st) in
  rides st' = []
  /\ selectedRideId st' = Some 2
  /\ selectedRideId st' <> None.
Proof.
  cbv zeta. vm_compute. repeat split; discriminate.
Qed.

(** C4, amended.  After a successful poll whose RideSet does not contain
    the prior SelectedRideId, the new SelectedRideId is the id of the first
    ride of the new RideSet when that set is non-empty, and the prior value
    when it is empty. *)
Theorem selection_reset
  (u : Session) (r : Response) (data : list Ride) (st : State) :
  ok r = true ->
  JSON_parse (text r) = Some data ->
  (forall x, selectedRideId st = Some x -> ~ In x (map id data)) ->
  let st' := fst (fetchRides (Some u) (Resolved r) st) in
  rides st' = data
  /\ match data with
     | ride0 :: _ => selectedRideId st' = Some (id ride0) /\ In (id ride0) (map id (rides st'))
     | [] => selectedRideId st' = selectedRideId st
     end.
Proof.
  intros Hok Hparse _ st'. subst st'.
  rewrite (fetchRides_success u r data st Hok Hparse).
  destruct data as [| ride0 rest]; simpl; auto.
Qed.

Lemma selection_reset_witness :
  let st := {| isOpen := true; rides := [ride 1; ride 2]; selectedRideId := Some 2 |} in
  let st' := fst (fetchRides user (ok_with [ride 1; ride 3]) st) in
  rides st' = [ride 1; ride 3]
  /\ (selectedRideId st' = Some 1 /\ In 1 (map id (rides st'))).
Proof.
  refine (selection_reset "driver"
           {| status := 200; text := body [ride 1; ride 3] |}
           [ride 1; ride 3]
           {| isOpen := true; rides := [ride 1; ride 2]; selectedRideId := Some 2 |}
           eq_refl eq_refl _).
  simpl. intros x Hx [H | [H | []]]; injection Hx as <-; discriminate.
Defined.

End Selection.

(** * Properties of the rendered tree and of the toggle *)

Module Visibility.

Import ChatPanel Samples.

Lemma guard_id_truthy (v : option Z) :
  (exists n, guard_id v = Element n /\ v = Some n) <-> truthy v = true.
Proof.
  unfold guard_id, truthy. destruct v as [n |].
  - destruct (n =? 0); simpl; split.
    + intros (m & H & _). discriminate.
    + discriminate.
    + reflexivity.
    + intros _. exists n. split; reflexivity.
  - split; [intros (m & H & _) | ]; discriminate.
Qed.

Lemma chatBoxRendered_spec (session : option Session) (st : State) :
  Widget.chatBoxRendered (render session st) = isOpen st && truthy (selectedRideId st).
Proof.
  unfold Widget.chatBoxRendered, render, guard_bool, guard_id, truthy. simpl.
  destruct (isOpen st); simpl; [| reflexivity].
  destruct (selectedRideId st) as [n |]; [| reflexivity].
  destruct (n =? 0); reflexivity.
Qed.

(** C9.  A click on a toggle control negates [isOpen] and leaves the other
    cells alone; two clicks in a row give back the state; a click on an open
    widget closes it, whatever the RideSet and the selection (the handler
    does not read the session). *)
Theorem toggle_involution (st : State) :
  let click := fun s : State => toggleChat s s in
  isOpen (click st) = negb (isOpen st)
  /\ rides (click st) = rides st
  /\ selectedRideId (click st) = selectedRideId st
  /\ click (click st) = st
  /\ (forall rs sel,
        isOpen (click {| isOpen := true; rides := rs; selectedRideId := sel |}) = false).
Proof.
  destruct st as [o rs sel]. unfold toggleChat, setIsOpen. simpl.
  rewrite negb_involutive. repeat split.
Qed.

(** C10.  With the widget open and SelectedRideId equal to 0, the ChatBox
    and the SendMessage control are not in the tree: in their places the
    expression [selectedRideId && ...] leaves the number 0. *)
Theorem zero_id_renders_no_chat (session : option Session) (st : State) :
  isOpen st = true ->
  selectedRideId st = Some 0 ->
  exists p,
    panel (render session st) = Element p
    /\ chatBox p = Zero
    /\ sendMessage p = Zero
    /\ Widget.chatBoxRendered (render session st) = false.
Proof.
  intros Hopen Hsel.
  unfold Widget.chatBoxRendered, render, guard_bool. simpl.
  rewrite Hopen, Hsel. simpl.
  eexists. repeat split.
Qed.

Lemma zero_id_renders_no_chat_witness :
  exists p,
    panel (render user {| isOpen := true; rides := [ride 0; ride 4];
                          selectedRideId := Some 0 |}) = Element p
    /\ chatBox p = Zero
    /\ sendMessage p = Zero
    /\ Widget.chatBoxRendered
         (render user {| isOpen := true; rides := [ride 0; ride 4];
                         selectedRideId := Some 0 |}) = false.
Proof.
  exact (zero_id_renders_no_chat user
           {| isOpen := true; rides := [ride 0; ride 4]; selectedRideId := Some 0 |}
           eq_refl eq_refl).
Defined.

End Visibility.

(** * Properties of the mounted widget *)

Module WidgetFacts.

Import ChatPanel ChatPanelFacts Widget Samples.

(** What a commit leaves alone. *)
Lemma commit_fields (st' : State) (log : list LogEntry) (s : System) :
  state (commit st' log s) = st'
  /\ session (commit st' log s) = session s
  /\ console (commit st' log s) = console s ++ log
  /\ inflight (commit st' log s) = inflight s
  /\ interval (commit st' log s) = interval s.
Proof.
  unfold commit.
  destruct (chatBoxRendered (render (session s) st')), (child s);
    simpl; repeat split.
Qed.

Lemma commit_in_sync (st' : State) (log : list LogEntry) (s : System) :
  in_sync s -> in_sync (commit st' log s).
Proof.
  unfold in_sync, commit, subscriptions, view.
  destruct (chatBoxRendered (render (session s) st')) eqn:Hr;
    destruct (child s) as [inst |]; simpl; intros [H1 H2].
  - split; assumption.
  - rewrite H2. split; [assumption | reflexivity].
  - rewrite H2. simpl. rewrite Nat.eqb_refl. split; [assumption | reflexivity].
  - split; assumption.
Qed.

(** A commit of the state already shown changes neither the ChatBox nor the
    store. *)
Lemma commit_same_state (log : list LogEntry) (s : System) :
  in_sync s ->
  child (commit (state s) log s) = child s /\ db (commit (state s) log s) = db s.
Proof.
  unfold in_sync, commit, view.
  destruct (child s) as [inst |]; intros [H1 _]; rewrite H1; simpl; split; reflexivity.
Qed.

Lemma fetchRides_isOpen (sess : option Session) (f : FetchResult) (st : State) :
  isOpen (fst (fetchRides sess f st)) = isOpen st.
Proof.
  destruct sess as [u |]; [| reflexivity].
  destruct f as [| r].
  - reflexivity.
  - unfold fetchRides, Exn.try_catch, Exn.bind, await, parse, Exn.ret, Exn.throw.
    simpl. destruct (ok r); simpl; [| reflexivity].
    destruct (JSON_parse (text r)) as [data |]; simpl; [| reflexivity].
    destruct data; reflexivity.
Qed.

Lemma step_in_sync (e : Event) (s s' : System) :
  step e s = Some s' -> in_sync s -> in_sync s'.
Proof.
  intros Hstep Hs.
  destruct e; cbn [step] in Hstep.
  - destruct (interval s); [| discriminate].
    injection Hstep as <-. exact Hs.
  - destruct (inflight s); [discriminate |].
    destruct (fetchRides (session s) f (state s)) as [st' log].
    injection Hstep as <-.
    exact (commit_in_sync st' log s Hs).
  - destruct (chatButton (view s)); try discriminate.
    injection Hstep as <-. apply commit_in_sync, Hs.
  - destruct (panel (view s)); try discriminate.
    injection Hstep as <-. apply commit_in_sync, Hs.
  - destruct (panel (view s)) as [| | p]; try discriminate.
    destruct (nth_error (tabs p) n); [| discriminate].
    injection Hstep as <-. apply commit_in_sync, Hs.
  - injection Hstep as <-. exact Hs.
  - unfold in_sync in Hs.
    destruct (child s) as [inst |] eqn:Hc; [| discriminate].
    destruct (Firestore.listening _ _); [| discriminate].
    injection Hstep as <-. unfold in_sync. simpl. exact Hs.
Qed.

Lemma reachable_in_sync (s : System) : reachable s -> in_sync s.
Proof.
  induction 1 as [sess store | s e s' _ IH Hstep].
  - unfold in_sync. simpl. split; reflexivity.
  - exact (step_in_sync e s s' Hstep IH).
Qed.

Lemma step_polling (e : Event) (s s' : System) :
  step e s = Some s' -> polling s -> polling s'.
Proof.
  intros Hstep (t & Ht & Hd). unfold polling.
  destruct e; cbn [step] in Hstep.
  - rewrite Ht in Hstep. injection Hstep as <-. simpl. eexists. split; [reflexivity | exact Hd].
  - destruct (inflight s); [discriminate |].
    destruct (fetchRides (session s) f (state s)) as [st' log].
    injection Hstep as <-. simpl.
    destruct (commit_fields st' log s) as (_ & _ & _ & _ & ->). eauto.
  - destruct (chatButton (view s)); try discriminate.
    injection Hstep as <-.
    destruct (commit_fields (toggleChat (state s) (state s)) [] s) as (_ & _ & _ & _ & ->). eauto.
  - destruct (panel (view s)); try discriminate.
    injection Hstep as <-.
    destruct (commit_fields (toggleChat (state s) (state s)) [] s) as (_ & _ & _ & _ & ->). eauto.
  - destruct (panel (view s)) as [| | p]; try discriminate.
    destruct (nth_error (tabs p) n) as [tab |]; [| discriminate].
    injection Hstep as <-.
    destruct (commit_fields (setSelectedRideId (Some (selects tab)) (state s)) [] s)
      as (_ & _ & _ & _ & ->). eauto.
  - injection Hstep as <-. simpl. eauto.
  - destruct (child s) as [inst |]; [| discriminate].
    destruct (Firestore.listening _ _); [| discriminate].
    injection Hstep as <-. simpl. eauto.
Qed.

Lemma reachable_polling (s : System) : reachable s -> polling s.
Proof.
  induction 1 as [sess store | s e s' _ IH Hstep].
  - eexists. split; reflexivity.
  - exact (step_polling e s s' Hstep IH).
Qed.

End WidgetFacts.

Module Lifecycle.

Import ChatPanel ChatPanelFacts Widget WidgetFacts Samples.

Lemma step_session (e : Event) (s s' : System) :
  step e s = Some s' -> session s' = session s.
Proof.
  intros Hstep.
  destruct e; cbn [step] in Hstep.
  - destruct (interval s); [| discriminate]. injection Hstep as <-. reflexivity.
  - destruct (inflight s); [discriminate |].
    destruct (fetchRides (session s) f (state s)) as [st' log].
    injection Hstep as <-. simpl. apply commit_fields.
  - destruct (chatButton (view s)); try discriminate.
    injection Hstep as <-. apply commit_fields.
  - destruct (panel (view s)); try discriminate.
    injection Hstep as <-. apply commit_fields.
  - destruct (panel (view s)) as [| | p]; try discriminate.
    destruct (nth_error (tabs p) n); [| discriminate].
    injection Hstep as <-. apply commit_fields.
  - injection Hstep as <-. reflexivity.
  - destruct (child s); [| discriminate].
    destruct (Firestore.listening _ _); [| discriminate].
    injection Hstep as <-. reflexivity.
Qed.

(** A fetch is in flight only for a logged-in actor. *)
Lemma reachable_inflight (s : System) :
  reachable s -> session s = None -> inflight s = O.
Proof.
  induction 1 as [sess store | s e s' _ IH Hstep]; intros Hnone.
  - simpl in *. subst sess. reflexivity.
  - rewrite (step_session e s s' Hstep) in Hnone. specialize (IH Hnone).
    destruct e; cbn [step] in Hstep.
    + destruct (interval s); [| discriminate]. injection Hstep as <-. simpl.
      rewrite Hnone. exact IH.
    + rewrite IH in Hstep. discriminate.
    + destruct (chatButton (view s)); try discriminate.
      injection Hstep as <-.
      destruct (commit_fields (toggleChat (state s) (state s)) [] s) as (_ & _ & _ & -> & _).
      exact IH.
    + destruct (panel (view s)); try discriminate.
      injection Hstep as <-.
      destruct (commit_fields (toggleChat (state s) (state s)) [] s) as (_ & _ & _ & -> & _).
      exact IH.
    + destruct (panel (view s)) as [| | p]; try discriminate.
      destruct (nth_error (tabs p) n) as [tab |]; [| discriminate].
      injection Hstep as <-.
      destruct (commit_fields (setSelectedRideId (Some (selects tab)) (state s)) [] s)
        as (_ & _ & _ & -> & _).
      exact IH.
    + injection Hstep as <-. exact IH.
    + destruct (child s); [| discriminate].
      destruct (Firestore.listening _ _); [| discriminate].
      injection Hstep as <-. exact IH.
Qed.

Lemma run_reachable (es : list Event) (s s' : System) :
  reachable s -> run es s = Some s' -> reachable s'.
Proof.
  revert s. induction es as [| e es IH]; intros s Hs Hrun; simpl in Hrun.
  - injection Hrun as <-. exact Hs.
  - destruct (step e s) as [s1 |] eqn:Hstep; [| discriminate].
    exact (IH s1 (reach_step s e s1 Hs Hstep) Hrun).
Qed.

Lemma after_reachable (es : list Event) (s : System) :
  reachable s -> reachable (after es s).
Proof.
  intros Hs. unfold after.
  destruct (run es s) as [s' |] eqn:Hrun; [| exact Hs].
  exact (run_reachable es s s' Hs Hrun).
Qed.

(** C6.  A poll whose response has a non-success status, or a body that
    does not parse, leaves the RideSet (and the rest of the state, the
    ChatBox and the store) as it was; the error goes to the console and
    nowhere else; the interval timer is untouched, so the next poll is
    started when the timer fires, 3000 ms after its previous firing. *)
Theorem failed_poll_is_harmless (s : System) (r : Response) :
  reachable s ->
  (0 < inflight s)%nat ->
  ok r = false \/ JSON_parse (text r) = None ->
  exists s' e t,
    step (FetchSettles (Resolved r)) s = Some s'
    /\ rides (state s') = rides (state s)
    /\ state s' = state s /\ child s' = child s /\ db s' = db s
    /\ console s' = console s ++ [("Error fetching rides:", e)]
    /\ interval s' = interval s
    /\ interval s' = Some t /\ delay t = 3000
    /\ exists s'',
         step TimerFires s' = Some s''
         /\ interval s'' = Some {| due := due t + 3000; delay := 3000 |}
         /\ inflight s'' = S (inflight s')
         /\ state s'' = state s.
Proof.
  intros Hreach Hin Hbad.
  destruct (session s) as [u |] eqn:Hsess.
  2: { rewrite (reachable_inflight s Hreach Hsess) in Hin. lia. }
  assert (Hfails : exists e, fails (Resolved r) e).
  { destruct (ok r) eqn:Hok.
    - destruct Hbad as [Hbad | Hbad]; [discriminate |].
      eexists. now apply fails_parse.
    - eexists. now apply fails_status. }
  destruct Hfails as [e Hfails].
  destruct (reachable_polling s Hreach) as (t & Ht & Hd).
  destruct (inflight s) as [| n] eqn:Hn; [lia |].
  pose proof (commit_fields (state s) [("Error fetching rides:", e)] s)
    as (Hst & Hse & Hco & _ & Hiv).
  pose proof (commit_same_state [("Error fetching rides:", e)] s
                (reachable_in_sync s Hreach)) as (Hch & Hdb).
  eexists. exists e, t.
  split.
  { cbn [step]. rewrite Hn, Hsess, (fetchRides_failure u _ e (state s) Hfails).
    reflexivity. }
  cbn [state child db console interval inflight session].
  rewrite Hst, Hch, Hdb, Hco, Hiv, Hse.
  repeat split; try assumption.
  eexists. split.
  { cbn [step interval]. rewrite Ht. reflexivity. }
  cbn [interval inflight state session]. rewrite Hd, Hsess.
  repeat split.
Qed.

Lemma failed_poll_is_harmless_witness :
  exists s' e t,
    step (FetchSettles http_500) (boot user (store [])) = Some s'
    /\ rides (state s') = rides (state (boot user (store [])))
    /\ state s' = state (boot user (store []))
    /\ child s' = child (boot user (store []))
    /\ db s' = db (boot user (store []))
    /\ console s' = console (boot user (store [])) ++ [("Error fetching rides:", e)]
    /\ interval s' = interval (boot user (store []))
    /\ interval s' = Some t /\ delay t = 3000
    /\ exists s'',
         step TimerFires s' = Some s''
         /\ interval s'' = Some {| due := due t + 3000; delay := 3000 |}
         /\ inflight s'' = S (inflight s')
         /\ state s'' = state (boot user (store [])).
Proof.
  exact (failed_poll_is_harmless (boot user (store []))
           {| status := 500; text := body [ride 1] |}
           (reach_boot user (store []))
           (le_n 1)
           (or_introl eq_refl)).
Defined.

End Lifecycle.

Module Interface.

Import ChatPanel ChatPanelFacts Widget WidgetFacts Lifecycle Samples.

(** C5, as stated, fails.  [toggleChat] has no guard: run on the closed
    widget with an empty RideSet it opens it.  And the widget can be open
    with an empty RideSet: opened while ride 1 was in progress, it stays
    open when the next poll returns no ride. *)
Lemma toggle_not_gated :
  (isOpen initial = false
   /\ rides initial = []
   /\ isOpen (toggleChat initial initial) = true)
  /\ exists s,
       run [FetchSettles (ok_with [ride 1]); ClickChat; TimerFires;
            FetchSettles (ok_with [])] (boot user (store [])) = Some s
       /\ isOpen (state s) = true
       /\ rides (state s) = [].
Proof.
  split.
  - repeat split.
  - eexists. split; [vm_compute; reflexivity |]. split; reflexivity.
Qed.

(** C5, amended.  An event takes the widget from closed to open only if it
    is a click on the Chat button, and that button is rendered only for a
    logged-in actor with a non-empty RideSet. *)
Theorem opens_only_by_chat_button (e : Event) (s s' : System) :
  step e s = Some s' ->
  isOpen (state s) = false ->
  isOpen (state s') = true ->
  e = ClickChat
  /\ chatButton (view s) = Element tt
  /\ isLoggedIn (session s) = true
  /\ rides (state s) <> [].
Proof.
  intros Hstep Hclosed Hopen.
  destruct e; cbn [step] in Hstep.
  - destruct (interval s); [| discriminate]. injection Hstep as <-.
    simpl in Hopen. congruence.
  - destruct (inflight s); [discriminate |].
    pose proof (fetchRides_isOpen (session s) f (state s)) as Hkeep.
    destruct (fetchRides (session s) f (state s)) as [st' log].
    injection Hstep as <-. cbn [state] in Hopen.
    destruct (commit_fields st' log s) as (Hst & _). rewrite Hst in Hopen.
    simpl in Hkeep. congruence.
  - unfold view, render, guard_bool in *. cbn [chatButton] in *.
    destruct (isLoggedIn (session s)) eqn:Hlog; simpl in *; [| discriminate].
    destruct (rides (state s)) as [| ride0 rest]; simpl in *; [discriminate |].
    repeat split. discriminate.
  - unfold view, render, guard_bool in Hstep. cbn [panel] in Hstep.
    rewrite Hclosed in Hstep. discriminate.
  - unfold view, render, guard_bool in Hstep. cbn [panel] in Hstep.
    rewrite Hclosed in Hstep. discriminate.
  - injection Hstep as <-. simpl in Hopen. congruence.
  - destruct (child s); [| discriminate].
    destruct (Firestore.listening _ _); [| discriminate].
    injection Hstep as <-. simpl in Hopen. congruence.
Qed.

Lemma opens_only_by_chat_button_witness :
  ClickChat = ClickChat
  /\ chatButton (view closed_two) = Element tt
  /\ isLoggedIn (session closed_two) = true
  /\ rides (state closed_two) <> [].
Proof.
  exact (opens_only_by_chat_button ClickChat closed_two
           (commit (toggleChat (state closed_two) (state closed_two)) [] closed_two)
           eq_refl eq_refl eq_refl).
Defined.

(** C7, as stated, fails.  The select operation is the setter
    [setSelectedRideId]; it checks nothing: given 99, which no ride of the
    RideSet has, it makes 99 the selection. *)
Lemma select_absent_id_not_rejected :
  let st := {| isOpen := true; rides := [ride 1; ride 2]; selectedRideId := Some 1 |} in
  ~ In 99 (map id (rides st))
  /\ selectedRideId (setSelectedRideId (Some 99) st) = Some 99
  /\ selectedRideId (setSelectedRideId (Some 99) st) <> selectedRideId st.
Proof.
  cbv zeta. simpl. repeat split; try discriminate.
  intros [H | [H | []]]; discriminate.
Qed.

(** C7, amended.  The interface calls the select operation only from the
    tab buttons, one for each ride of the current RideSet: a click on a tab
    selects the id of a ride that is in the RideSet, and changes nothing
    else of the state. *)
Theorem tab_click_selects_present_ride (n : nat) (s s' : System) :
  step (ClickTab n) s = Some s' ->
  exists ride0,
    nth_error (rides (state s)) n = Some ride0
    /\ isOpen (state s) = true
    /\ state s' = setSelectedRideId (Some (id ride0)) (state s)
    /\ In (id ride0) (map id (rides (state s'))).
Proof.
  intros Hstep. cbn [step] in Hstep.
  unfold view, render, guard_bool in Hstep. cbn [panel] in Hstep.
  destruct (isOpen (state s)) eqn:Hopen; [| discriminate].
  cbn [tabs] in Hstep. rewrite nth_error_map in Hstep.
  destruct (nth_error (rides (state s)) n) as [ride0 |] eqn:Hn; [| discriminate].
  simpl in Hstep. injection Hstep as <-.
  destruct (commit_fields (setSelectedRideId (Some (id ride0)) (state s)) [] s)
    as (Hst & _).
  exists ride0. rewrite Hst. repeat split.
  simpl. apply in_map. exact (nth_error_In _ _ Hn).
Qed.

Lemma tab_click_selects_present_ride_witness :
  exists ride0,
    nth_error (rides (state open_two)) 1 = Some ride0
    /\ isOpen (state open_two) = true
    /\ state (commit (setSelectedRideId (Some 2) (state open_two)) [] open_two)
       = setSelectedRideId (Some (id ride0)) (state open_two)
    /\ In (id ride0)
          (map id (rides (state (commit (setSelectedRideId (Some 2) (state open_two))
                                   [] open_two)))).
Proof.
  exact (tab_click_selects_present_ride 1%nat open_two
           (commit (setSelectedRideId (Some 2) (state open_two)) [] open_two)
           eq_refl).
Defined.

End Interface.

(** * The order of a query and the message window *)

Module Ordering.

Import Firestore.

Lemma ts_leb_total (a b : Timestamp) : ts_leb a b = false -> ts_leb b a = true.
Proof.
  unfold ts_leb. intros H.
  apply orb_false_iff in H. destruct H as [H1 H2].
  apply Z.ltb_ge in H1.
  destruct (seconds b <? seconds a) eqn:Hlt; [reflexivity |].
  apply Z.ltb_ge in Hlt.
  assert (Heq : seconds a = seconds b) by lia.
  rewrite Heq, Z.eqb_refl in *. simpl in *.
  apply Z.leb_gt in H2. apply Z.leb_le. lia.
Qed.

Lemma ts_le_trans (a b c : Timestamp) : ts_le a b -> ts_le b c -> ts_le a c.
Proof.
  unfold ts_le, ts_leb. intros H1 H2.
  apply orb_true_iff in H1. apply orb_true_iff in H2. apply orb_true_iff.
  rewrite andb_true_iff, Z.ltb_lt, Z.eqb_eq, Z.leb_le in *.
  lia.
Qed.

Lemma ts_le_refl (a : Timestamp) : ts_le a a.
Proof.
  unfold ts_le, ts_leb. rewrite Z.eqb_refl, Z.leb_refl. apply orb_true_r.
Qed.


Lemma ts_eqb_eq (a b : Timestamp) :
  ts_eqb a b = true <-> seconds a = seconds b /\ nanoseconds a = nanoseconds b.
Proof.
  unfold ts_eqb. rewrite andb_true_iff, !Z.eqb_eq. reflexivity.
Qed.


(** The order of the query is total. *)
Lemma doc_leb_total (a b : Doc) : doc_leb a b = false -> doc_leb b a = true.
Proof.
  unfold doc_leb. intros H.
  destruct (ts_eqb (createdAt (data a)) (createdAt (data b))) eqn:Hab.
  - apply ts_eqb_eq in Hab.
    assert (Hba : ts_eqb (createdAt (data b)) (createdAt (data a)) = true)
      by (apply ts_eqb_eq; lia).
    rewrite Hba.
    destruct (String.leb_total (doc_id a) (doc_id b)) as [Hl | Hl]; congruence.
  - destruct (ts_eqb (createdAt (data b)) (createdAt (data a))) eqn:Hba.
    + apply ts_eqb_eq in Hba.
      assert (Hab' : ts_eqb (createdAt (data a)) (createdAt (data b)) = true)
        by (apply ts_eqb_eq; lia).
      congruence.
    + apply ts_leb_total. exact H.
Qed.




Lemma insert_perm (d : Doc) (l : list Doc) : Permutation (insert d l) (d :: l).
Proof.
  induction l as [| x xs IH]; simpl.
  - apply Permutation_refl.
  - destruct (doc_leb d x).
    + apply Permutation_refl.
    + apply perm_trans with (x :: d :: xs).
      * apply perm_skip, IH.
      * apply perm_swap.
Qed.

Lemma orderBy_perm (l : list Doc) : Permutation (orderBy_createdAt l) l.
Proof.
  induction l as [| d ds IH]; simpl.
  - apply perm_nil.
  - apply perm_trans with (d :: orderBy_createdAt ds).
    + apply insert_perm.
    + apply perm_skip, IH.
Qed.



Section Sorted.
Context {A : Type} (R : A -> A -> Prop).


End Sorted.




End Ordering.

Module Stream.

Import ChatPanel ChatPanelFacts Widget WidgetFacts Lifecycle Samples Ordering.

Lemma listening_in_sync (s : System) (inst : ChatBox.Instance) :
  in_sync s -> child s = Some inst ->
  Firestore.listening (ChatBox.unsubscribe inst) (db s) = Some ChatBox.q.
Proof.
  unfold in_sync, subscriptions, Firestore.listening.
  intros Hs Hc. rewrite Hc in Hs. destruct Hs as [_ ->].
  simpl. rewrite Nat.eqb_refl. reflexivity.
Qed.

(** A delivery replaces the window by the window of the collection. *)
Lemma snapshot_delivered (s s' : System) :
  in_sync s ->
  step SnapshotDelivered s = Some s' ->
  exists inst,
    child s = Some inst
    /\ child s' = Some {| ChatBox.messages :=
                            ChatBox.window_of (Firestore.collection (db s) "messages");
                          ChatBox.unsubscribe := ChatBox.unsubscribe inst |}
    /\ state s' = state s /\ db s' = db s.
Proof.
  intros Hs Hstep. cbn [step] in Hstep.
  destruct (child s) as [inst |] eqn:Hc; [| discriminate].
  rewrite (listening_in_sync s inst Hs Hc) in Hstep.
  injection Hstep as <-. exists inst. repeat split.
Qed.







(** C2, as stated, fails.  After the first poll ride 1 is selected and the
    widget is closed: there is no subscription.  Once the widget is open the
    window shows the messages of ride 1 and of ride 2 alike.  A click on the
    tab of ride 2 changes the selection and leaves the subscription and the
    window as they were: nothing is torn down, nothing is established. *)
Lemma subscription_not_per_ride :
  let s0 := boot user (store two_rides_talk) in
  (exists s1,
     run [FetchSettles (ok_with [ride 1; ride 2])] s0 = Some s1
     /\ selectedRideId (state s1) = Some 1
     /\ subscriptions s1 = [])
  /\ (exists s2 s3 inst,
        run (load_open_deliver [ride 1; ride 2]) s0 = Some s2
        /\ selectedRideId (state s2) = Some 1
        /\ child s2 = Some inst
        /\ map ChatBox.rideId (ChatBox.messages inst) = [Some 1; Some 2]
        /\ step (ClickTab 1) s2 = Some s3
        /\ selectedRideId (state s3) = Some 2
        /\ subscriptions s3 = subscriptions s2
        /\ child s3 = child s2).
Proof.
  cbv zeta. split.
  - eexists. split; [vm_compute; reflexivity |]. split; reflexivity.
  - eexists. eexists. eexists.
    split; [vm_compute; reflexivity |].
    split; [reflexivity |].
    split; [reflexivity |].
    split; [reflexivity |].
    split; [vm_compute; reflexivity |].
    repeat split.
Qed.

(** C2, amended.  In every reachable state there is at most one active
    subscription, and it is on the query that ChatBox builds; there is
    exactly one when the widget is open and SelectedRideId is present and
    not 0, which is when the ChatBox is mounted, and none otherwise. *)
Theorem one_subscription_while_mounted (s : System) :
  reachable s ->
  (List.length (subscriptions s) <= 1)%nat
  /\ (forall l, In l (subscriptions s) -> Firestore.listens l = ChatBox.q)
  /\ (List.length (subscriptions s) = 1%nat <->
      isOpen (state s) = true /\ truthy (selectedRideId (state s)) = true)
  /\ (List.length (subscriptions s) = 1%nat <-> exists inst, child s = Some inst)
  /\ (List.length (subscriptions s) = 0%nat <-> child s = None).
Proof.
  intros Hreach.
  pose proof (reachable_in_sync s Hreach) as Hsync.
  unfold in_sync, view in Hsync.
  rewrite Visibility.chatBoxRendered_spec in Hsync.
  destruct (child s) as [inst |]; destruct Hsync as [Hr ->]; simpl.
  - apply andb_true_iff in Hr.
    split; [lia |].
    split; [intros l [<- | []]; reflexivity |].
    split; [tauto |].
    split; [split; eauto |].
    split; discriminate.
  - apply andb_false_iff in Hr.
    split; [lia |].
    split; [intros l [] |].
    split; [split; [discriminate | intros [Ho Ht]; destruct Hr; congruence] |].
    split; [split; [discriminate | intros [inst Hi]; discriminate] |].
    split; reflexivity.
Qed.

Lemma one_subscription_while_mounted_witness :
  let s := after [FetchSettles (ok_with [ride 1; ride 2]); ClickChat]
                 (boot user (store two_rides_talk)) in
  (List.length (subscriptions s) <= 1)%nat
  /\ (forall l, In l (subscriptions s) -> Firestore.listens l = ChatBox.q)
  /\ (List.length (subscriptions s) = 1%nat <->
      isOpen (state s) = true /\ truthy (selectedRideId (state s)) = true)
  /\ (List.length (subscriptions s) = 1%nat <-> exists inst, child s = Some inst)
  /\ (List.length (subscriptions s) = 0%nat <-> child s = None).
Proof.
  exact (one_subscription_while_mounted
           (after [FetchSettles (ok_with [ride 1; ride 2]); ClickChat]
                  (boot user (store two_rides_talk)))
           (after_reachable _ _ (reach_boot user (store two_rides_talk)))).
Defined.

End Stream.

(** * Further properties of the widget *)

Module WidgetInvariants.

Import ChatPanel ChatPanelFacts Widget WidgetFacts Lifecycle Samples.

(** What a poll can do to the state, whatever the response. *)
Lemma fetchRides_cases (sess : option Session) (f : FetchResult) (st : State) :
  let st' := fst (fetchRides sess f st) in
  st' = st
  \/ (st' = setRides [] st)
  \/ (exists ride0 rest,
        st' = setSelectedRideId (Some (id ride0)) (setRides (ride0 :: rest) st)).
Proof.
  destruct sess as [u |]; [| left; reflexivity].
  destruct f as [| r]; [left; reflexivity |].
  destruct (ok r) eqn:Hok.
  - destruct (JSON_parse (text r)) as [data |] eqn:Hparse.
    + cbv zeta. rewrite (fetchRides_success u r data st Hok Hparse).
      destruct data as [| ride0 rest]; simpl.
      * right. left. reflexivity.
      * right. right. exists ride0, rest. reflexivity.
    + left. cbv zeta.
      rewrite (fetchRides_failure u _ SyntaxError st (fails_parse r Hok Hparse)).
      reflexivity.
  - left. cbv zeta.
    rewrite (fetchRides_failure u _ _ st (fails_status r Hok)). reflexivity.
Qed.

(** The state after a click on a tab. *)
Lemma tab_click_state (n : nat) (s s' : System) :
  step (ClickTab n) s = Some s' ->
  isOpen (state s) = true
  /\ exists ride0,
       nth_error (rides (state s)) n = Some ride0
       /\ s' = commit (setSelectedRideId (Some (id ride0)) (state s)) [] s.
Proof.
  intros Hstep. cbn [step] in Hstep.
  unfold view, render, guard_bool in Hstep. cbn [panel] in Hstep.
  destruct (isOpen (state s)) eqn:Hopen; [| discriminate].
  cbn [tabs] in Hstep. rewrite nth_error_map in Hstep.
  destruct (nth_error (rides (state s)) n) as [ride0 |] eqn:Hn; [| discriminate].
  simpl in Hstep. injection Hstep as <-.
  split; [reflexivity |]. exists ride0. split; reflexivity.
Qed.

(** The state cells after any step: those of a poll, of a toggle, of a tab
    click, or unchanged. *)
Lemma step_state (e : Event) (s s' : System) :
  step e s = Some s' ->
  state s' = state s
  \/ (exists f, state s' = fst (fetchRides (session s) f (state s)))
  \/ state s' = toggleChat (state s) (state s)
  \/ (exists ride0, In ride0 (rides (state s))
                    /\ state s' = setSelectedRideId (Some (id ride0)) (state s)).
Proof.
  intros Hstep. destruct e.
  5: { destruct (tab_click_state n s s' Hstep) as (_ & ride0 & Hn & ->).
       right. right. right. exists ride0.
       split; [exact (nth_error_In _ _ Hn) | apply commit_fields]. }
  all: cbn [step] in Hstep.
  - destruct (interval s); [| discriminate]. injection Hstep as <-. left. reflexivity.
  - destruct (inflight s); [discriminate |].
    right. left. exists f.
    destruct (fetchRides (session s) f (state s)) as [st' log].
    injection Hstep as <-. simpl. apply commit_fields.
  - destruct (chatButton (view s)); try discriminate.
    injection Hstep as <-. right. right. left. apply commit_fields.
  - destruct (panel (view s)); try discriminate.
    injection Hstep as <-. right. right. left. apply commit_fields.
  - injection Hstep as <-. left. reflexivity.
  - destruct (child s); [| discriminate].
    destruct (Firestore.listening _ _); [| discriminate].
    injection Hstep as <-. left. reflexivity.
Qed.

(** With the session absent and unchanged, nothing happens. *)
Lemma absent_session_idle (s : System) :
  reachable s ->
  session s = None ->
  state s = initial
  /\ inflight s = O
  /\ chatButton (view s) = Nothing
  /\ panel (view s) = Nothing
  /\ child s = None
  /\ subscriptions s = [].
Proof.
  intros Hreach Hnone.
  assert (Hst : state s = initial).
  { induction Hreach as [sess store | s e s' Hreach IH Hstep]; [reflexivity |].
    rewrite (step_session e s s' Hstep) in Hnone. specialize (IH Hnone).
    destruct (step_state e s s' Hstep) as [H | [[f H] | [H | (ride0 & Hin & _)]]].
    - congruence.
    - rewrite H, Hnone. simpl. exact IH.
    - exfalso. destruct e; cbn [step] in Hstep; try discriminate.
      + destruct (interval s); [| discriminate]. injection Hstep as <-.
        simpl in H. rewrite IH in H. discriminate.
      + rewrite (reachable_inflight s Hreach Hnone) in Hstep. discriminate.
      + unfold view in Hstep. rewrite Hnone in Hstep. discriminate.
      + unfold view in Hstep. rewrite IH in Hstep. discriminate.
      + unfold view in Hstep. rewrite IH in Hstep. discriminate.
      + injection Hstep as <-. simpl in H. rewrite IH in H. discriminate.
      + destruct (child s); [| discriminate].
        destruct (Firestore.listening _ _); [| discriminate].
        injection Hstep as <-. simpl in H. rewrite IH in H. discriminate.
    - rewrite IH in Hin. destruct Hin. }
  pose proof (reachable_in_sync s Hreach) as Hsync.
  unfold in_sync, view in *. rewrite Hst, Hnone in *.
  destruct (child s); destruct Hsync as [H1 H2]; [discriminate |].
  repeat split; try assumption.
  exact (reachable_inflight s Hreach Hnone).
Qed.

Lemma run_session (es : list Event) (s s' : System) :
  run es s = Some s' -> session s' = session s.
Proof.
  revert s. induction es as [| e es IH]; intros s Hrun; simpl in Hrun.
  - injection Hrun as <-. reflexivity.
  - destruct (step e s) as [s1 |] eqn:Hstep; [| discriminate].
    rewrite (IH s1 Hrun). exact (step_session e s s1 Hstep).
Qed.

(** X1.  When the session is absent at the mount, then through every run of
    events of that polling effect (the session staying absent) the widget
    does nothing: no fetch is started, the state cells keep their initial
    values, neither the Chat button nor the widget is rendered, and there is
    no ChatBox and no subscription. *)
Theorem logged_out_shows_nothing
  (store : string -> list Firestore.Doc) (es : list Event) (s : System) :
  run es (boot None store) = Some s ->
  session s = None
  /\ state s = initial
  /\ inflight s = O
  /\ chatButton (view s) = Nothing
  /\ panel (view s) = Nothing
  /\ child s = None
  /\ subscriptions s = [].
Proof.
  intros Hrun.
  pose proof (run_session es _ s Hrun) as Hnone. simpl in Hnone.
  split; [exact Hnone |].
  exact (absent_session_idle s (run_reachable es _ s (reach_boot None store) Hrun) Hnone).
Qed.

Lemma logged_out_shows_nothing_witness :
  let s := after [TimerFires; MessageAdded (message "a" 1 1); TimerFires]
                 (boot None (store [])) in
  session s = None
  /\ state s = initial
  /\ inflight s = O
  /\ chatButton (view s) = Nothing
  /\ panel (view s) = Nothing
  /\ child s = None
  /\ subscriptions s = [].
Proof.
  exact (logged_out_shows_nothing (store [])
           [TimerFires; MessageAdded (message "a" 1 1); TimerFires]
           (after [TimerFires; MessageAdded (message "a" 1 1); TimerFires]
                  (boot None (store [])))
           eq_refl).
Defined.

(** The selection and the RideSet, as long as polls store arrays of
    rides. *)
Lemma reachable_selection (s : System) :
  reachable s ->
  rides (state s) <> [] ->
  exists x,
    selectedRideId (state s) = Some x /\ In x (map id (rides (state s))).
Proof.
  intros Hreach.
  induction Hreach as [sess store | s e s' Hreach IH Hstep]; intros Hne.
  - simpl in Hne. congruence.
  - destruct (step_state e s s' Hstep) as [H | [[f H] | [H | (ride0 & Hin & H)]]].
    + rewrite H in *. exact (IH Hne).
    + pose proof (fetchRides_cases (session s) f (state s)) as Hc.
      cbv zeta in Hc. rewrite <- H in Hc.
      destruct Hc as [Hc | [Hc | (ride0 & rest & Hc)]]; rewrite Hc in *.
      * exact (IH Hne).
      * simpl in Hne. congruence.
      * exists (id ride0). simpl. split; [reflexivity | left; reflexivity].
    + rewrite H in *. simpl in *. exact (IH Hne).
    + rewrite H. simpl. exists (id ride0).
      split; [reflexivity | apply in_map, Hin].
Qed.

(** X2.  Take a run of events from the mount, with the session unchanged,
    in which every poll response either fails (rejected fetch, non-success
    status, body that JSON.parse rejects) or has a body that parses to an
    array of rides, the type the component reads it at.  Then whenever the
    RideSet is non-empty, SelectedRideId is present and is the id of one of
    its rides. *)
Theorem selection_in_nonempty_rideset
  (session : option Session) (store : string -> list Firestore.Doc)
  (es : list Event) (s : System) :
  run es (boot session store) = Some s ->
  rides (state s) <> [] ->
  exists x,
    selectedRideId (state s) = Some x /\ In x (map id (rides (state s))).
Proof.
  intros Hrun.
  exact (reachable_selection s (run_reachable es _ s (reach_boot session store) Hrun)).
Qed.

Lemma selection_in_nonempty_rideset_witness :
  let s := after [FetchSettles (ok_with [ride 4; ride 7]); ClickChat; ClickTab 1]
                 (boot user (store [])) in
  exists x,
    selectedRideId (state s) = Some x /\ In x (map id (rides (state s))).
Proof.
  apply (selection_in_nonempty_rideset user (store [])
           [FetchSettles (ok_with [ride 4; ride 7]); ClickChat; ClickTab 1]
           (after [FetchSettles (ok_with [ride 4; ride 7]); ClickChat; ClickTab 1]
                  (boot user (store [])))).
  - reflexivity.
  - vm_compute. discriminate.
Defined.

End WidgetInvariants.

Module ChatBoxLife.

Import ChatPanel ChatPanelFacts Widget WidgetFacts Lifecycle Samples.

(** X3.  A click on a tab that moves the selection from one non-zero id to
    another leaves the ChatBox as it is: the same instance with the same
    window, the same subscription, the same store. *)
Theorem tab_switch_keeps_chatbox (n : nat) (s s' : System) :
  reachable s ->
  step (ClickTab n) s = Some s' ->
  truthy (selectedRideId (state s)) = true ->
  truthy (selectedRideId (state s')) = true ->
  child s' = child s
  /\ db s' = db s
  /\ subscriptions s' = subscriptions s
  /\ exists inst, child s' = Some inst.
Proof.
  intros Hreach Hstep Hold Hnew.
  destruct (WidgetInvariants.tab_click_state n s s' Hstep) as (Hopen & ride0 & Hn & ->).
  pose proof (reachable_in_sync s Hreach) as Hsync.
  unfold in_sync, view in Hsync.
  rewrite Visibility.chatBoxRendered_spec, Hopen, Hold in Hsync. simpl in Hsync.
  destruct (commit_fields (setSelectedRideId (Some (id ride0)) (state s)) [] s)
    as (Hst & _).
  rewrite Hst in Hnew.
  unfold commit, subscriptions in *.
  rewrite Visibility.chatBoxRendered_spec. cbn [isOpen setSelectedRideId selectedRideId] in *.
  rewrite Hopen, Hnew. simpl.
  destruct (child s) as [inst |]; [| destruct Hsync; discriminate].
  simpl. repeat split. exists inst. reflexivity.
Qed.

Lemma tab_switch_keeps_chatbox_witness :
  let s := after (load_open_deliver [ride 1; ride 2]) (boot user (store two_rides_talk)) in
  let s' := after (load_open_deliver [ride 1; ride 2] ++ [ClickTab 1])
                  (boot user (store two_rides_talk)) in
  child s' = child s
  /\ db s' = db s
  /\ subscriptions s' = subscriptions s
  /\ exists inst, child s' = Some inst.
Proof.
  apply (tab_switch_keeps_chatbox 1%nat
           (after (load_open_deliver [ride 1; ride 2]) (boot user (store two_rides_talk)))
           (after (load_open_deliver [ride 1; ride 2] ++ [ClickTab 1])
                  (boot user (store two_rides_talk)))).
  - exact (after_reachable _ _ (reach_boot user (store two_rides_talk))).
  - vm_compute. reflexivity.
  - reflexivity.
  - reflexivity.
Defined.

(** X4.  Closing the widget unmounts the ChatBox and removes its
    subscription; opening it again mounts a new ChatBox whose window is
    empty, with a new subscription, while the state cells and the store's
    documents are what they were. *)
Theorem reopen_resets_window (s : System) :
  reachable s ->
  isOpen (state s) = true ->
  chatButton (view s) = Element tt ->
  truthy (selectedRideId (state s)) = true ->
  exists s1 s2,
    step ClickClose s = Some s1
    /\ child s1 = None
    /\ subscriptions s1 = []
    /\ step ClickChat s1 = Some s2
    /\ state s2 = state s
    /\ child s2 = Some {| ChatBox.messages := [];
                          ChatBox.unsubscribe := Firestore.fresh (db s) |}
    /\ subscriptions s2 = [{| Firestore.handle := Firestore.fresh (db s);
                              Firestore.listens := ChatBox.q |}]
    /\ Firestore.collection (db s2) = Firestore.collection (db s).
Proof.
  intros Hreach Hopen Hbutton Htruthy.
  pose proof (reachable_in_sync s Hreach) as Hsync.
  unfold in_sync, view, subscriptions in Hsync.
  rewrite Visibility.chatBoxRendered_spec, Hopen, Htruthy in Hsync. simpl in Hsync.
  destruct (child s) as [inst |] eqn:Hchild; [| destruct Hsync; discriminate].
  destruct Hsync as [_ Hl].
  destruct s as [sess st con inf iv ch d]. simpl in *. subst ch.
  destruct st as [o rs sel]. simpl in *. subst o.
  unfold view, render, guard_bool in Hbutton. simpl in Hbutton.
  destruct (isLoggedIn sess) eqn:Hlog; simpl in Hbutton; [| discriminate].
  destruct (0 <? Z.of_nat (List.length rs)) eqn:Hrs; [| discriminate].
  eexists. eexists.
  split.
  { cbn [step]. unfold view, render, guard_bool. simpl. reflexivity. }
  unfold commit, toggleChat, setIsOpen. simpl.
  split; [reflexivity |].
  split.
  { unfold subscriptions, ChatBox.unmount, Firestore.unsubscribe. simpl.
    rewrite Hl. simpl. rewrite Nat.eqb_refl. reflexivity. }
  split.
  { cbn [step]. unfold view, render, guard_bool. simpl.
    rewrite Hlog, Hrs. simpl. reflexivity. }
  unfold commit, toggleChat, setIsOpen, render, chatBoxRendered, guard_bool.
  simpl.
  assert (Hg : guard_id sel = Element (match sel with Some x => x | None => 0 end)).
  { unfold truthy in Htruthy. unfold guard_id. destruct sel as [x |]; [| discriminate].
    destruct (x =? 0); [discriminate | reflexivity]. }
  rewrite Hg. simpl.
  unfold subscriptions. simpl. rewrite Hl. simpl. rewrite Nat.eqb_refl. simpl.
  repeat split.
Qed.

Lemma reopen_resets_window_witness :
  let s := after (load_open_deliver [ride 1; ride 2]) (boot user (store two_rides_talk)) in
  exists s1 s2,
    step ClickClose s = Some s1
    /\ child s1 = None
    /\ subscriptions s1 = []
    /\ step ClickChat s1 = Some s2
    /\ state s2 = state s
    /\ child s2 = Some {| ChatBox.messages := [];
                          ChatBox.unsubscribe := Firestore.fresh (db s) |}
    /\ subscriptions s2 = [{| Firestore.handle := Firestore.fresh (db s);
                              Firestore.listens := ChatBox.q |}]
    /\ Firestore.collection (db s2) = Firestore.collection (db s).
Proof.
  exact (reopen_resets_window
           (after (load_open_deliver [ride 1; ride 2]) (boot user (store two_rides_talk)))
           (after_reachable _ _ (reach_boot user (store two_rides_talk)))
           eq_refl eq_refl eq_refl).
Defined.

(** X5.  Nothing keeps polls from overlapping: every firing of the timer
    starts a fetch for a logged-in actor, so [n] firings with no response in
    between leave [n + 1] fetches in flight (the first is the one the effect
    starts itself). *)
Theorem polls_overlap (n : nat) (u : Session) (store : string -> list Firestore.Doc) :
  exists s,
    run (repeat TimerFires n) (boot (Some u) store) = Some s
    /\ reachable s
    /\ inflight s = S n
    /\ state s = initial
    /\ interval s = Some {| due := 3000 * (Z.of_nat n + 1); delay := 3000 |}.
Proof.
  assert (H : forall n s t,
             interval s = Some t ->
             exists s',
               run (repeat TimerFires n) s = Some s'
               /\ inflight s' = Nat.iter n (call_fetchRides (session s)) (inflight s)
               /\ state s' = state s
               /\ session s' = session s
               /\ interval s' = Some {| due := due t + Z.of_nat n * delay t;
                                        delay := delay t |}).
  { clear n. induction n as [| n IH]; intros s t Ht.
    - exists s. simpl. rewrite Ht. destruct t as [d p]. simpl.
      replace (d + 0) with d by lia. repeat split.
    - simpl repeat. cbn [run step]. rewrite Ht.
      destruct (IH {| session := session s; state := state s; console := console s;
                      inflight := call_fetchRides (session s) (inflight s);
                      interval := Some {| due := due t + delay t; delay := delay t |};
                      child := child s; db := db s |}
                   {| due := due t + delay t; delay := delay t |} eq_refl)
        as (s' & Hrun & Hin & Hst & Hse & Hiv).
      exists s'. rewrite Hrun. cbn [session inflight state due delay] in *.
      rewrite Hin, Hst, Hse, Hiv.
      repeat split.
      + symmetry. apply Nat.iter_succ_r.
      + f_equal. f_equal. lia. }
  destruct (H n (boot (Some u) store) {| due := 3000; delay := 3000 |} eq_refl)
    as (s & Hrun & Hin & Hst & Hse & Hiv).
  exists s. split; [exact Hrun |].
  split; [exact (run_reachable _ _ _ (reach_boot (Some u) store) Hrun) |].
  split.
  { rewrite Hin. simpl. clear. induction n as [| n IH]; simpl; congruence. }
  split; [exact Hst |].
  rewrite Hiv. cbn [due delay]. f_equal. f_equal. lia.
Qed.

(** X7.  The open widget shows one tab per ride of the RideSet, in its
    order; when the ids of the rides are distinct, one tab is highlighted if
    SelectedRideId is the id of a ride of the RideSet, and none otherwise. *)
Theorem tabs_follow_rides (session : option Session) (st : State) :
  isOpen st = true ->
  exists p,
    panel (render session st) = Element p
    /\ map key (tabs p) = map id (rides st)
    /\ map selects (tabs p) = map id (rides st)
    /\ (NoDup (map id (rides st)) ->
        List.length (filter highlighted (tabs p))
        = if existsb (same_id (selectedRideId st)) (map id (rides st))
          then 1%nat else 0%nat).
Proof.
  intros Hopen. unfold render, guard_bool. rewrite Hopen. simpl.
  eexists. split; [reflexivity |]. simpl.
  rewrite !map_map. simpl.
  split; [reflexivity |]. split; [reflexivity |].
  generalize (selectedRideId st) as sel. intros sel.
  induction (rides st) as [| r rs IH]; intros Hnd; simpl.
  - reflexivity.
  - inversion Hnd as [| x xs Hnotin Hnd']; subst.
    specialize (IH Hnd').
    destruct (same_id sel (id r)) eqn:Hr; simpl.
    + f_equal. rewrite IH.
      destruct (existsb (same_id sel) (map id rs)) eqn:Hex; [| reflexivity].
      exfalso. apply existsb_exists in Hex. destruct Hex as (y & Hy & Hsy).
      unfold same_id in *. destruct sel as [m |]; [| discriminate].
      apply Z.eqb_eq in Hr. apply Z.eqb_eq in Hsy. subst. contradiction.
    + exact IH.
Qed.

Lemma tabs_follow_rides_witness :
  let st := {| isOpen := true; rides := [ride 1; ride 2; ride 3];
               selectedRideId := Some 2 |} in
  exists p,
    panel (render user st) = Element p
    /\ map key (tabs p) = map id (rides st)
    /\ map selects (tabs p) = map id (rides st)
    /\ (NoDup (map id (rides st)) ->
        List.length (filter highlighted (tabs p))
        = if existsb (same_id (selectedRideId st)) (map id (rides st))
          then 1%nat else 0%nat).
Proof.
  exact (tabs_follow_rides user
           {| isOpen := true; rides := [ride 1; ride 2; ride 3];
              selectedRideId := Some 2 |}
           eq_refl).
Defined.

End ChatBoxLife.

Module WindowFreeze.

Import ChatPanel Widget WidgetFacts Lifecycle Samples Ordering.

Lemma insert_before_last (x d : Firestore.Doc) (l : list Firestore.Doc) :
  Firestore.doc_le x d ->
  Firestore.insert x (l ++ [d]) = Firestore.insert x l ++ [d].
Proof.
  intros Hxd. induction l as [| y ys IH]; simpl.
  - unfold Firestore.doc_le in Hxd. rewrite Hxd. reflexivity.
  - destruct (Firestore.doc_leb x y); [reflexivity |].
    rewrite IH. reflexivity.
Qed.

(** A document that is after all the others in the order of the query
    comes last. *)
Lemma orderBy_newest_last (d : Firestore.Doc) (l : list Firestore.Doc) :
  (forall x, In x l -> Firestore.doc_le x d) ->
  Firestore.orderBy_createdAt (l ++ [d]) = Firestore.orderBy_createdAt l ++ [d].
Proof.
  induction l as [| x xs IH]; intros Hall; simpl.
  - reflexivity.
  - rewrite IH by (intros y Hy; apply Hall; right; exact Hy).
    apply insert_before_last, Hall. left. reflexivity.
Qed.

Lemma window_of_newest (d : Firestore.Doc) (history : list Firestore.Doc) :
  (10 <= List.length history)%nat ->
  (forall x, In x history -> Firestore.sorts_after d x) ->
  ChatBox.window_of (history ++ [d]) = ChatBox.window_of history.
Proof.
  intros Hlen Hall. unfold ChatBox.window_of.
  rewrite map_app. cbn [map].
  rewrite (orderBy_newest_last (Firestore.stored d) (map Firestore.stored history)).
  - rewrite firstn_app.
    rewrite (Permutation_length (orderBy_perm (map Firestore.stored history))).
    rewrite length_map.
    replace (10 - List.length history)%nat with 0%nat by lia.
    simpl. rewrite app_nil_r. reflexivity.
  - intros y Hy. apply in_map_iff in Hy. destruct Hy as (x & <- & Hx).
    apply doc_leb_total. exact (Hall x Hx).
Qed.

(** X6.  Once the collection holds 10 messages, a new message (its
    document id is not in the collection) that the query lists after all of
    them (its time in the store is later, or it is the same and its id is
    greater) never shows: the snapshot delivered after it is added gives the
    window that was there before. *)
Theorem new_message_not_shown_after_ten (s : System) (d : Firestore.Doc) :
  reachable s ->
  (exists inst, child s = Some inst) ->
  (10 <= List.length (Firestore.collection (db s) "messages"))%nat ->
  ~ In (Firestore.doc_id d)
       (map Firestore.doc_id (Firestore.collection (db s) "messages")) ->
  (forall x, In x (Firestore.collection (db s) "messages") ->
             Firestore.sorts_after d x) ->
  exists s1 s2 s3 inst1 inst3,
    step SnapshotDelivered s = Some s1
    /\ child s1 = Some inst1
    /\ step (MessageAdded d) s1 = Some s2
    /\ step SnapshotDelivered s2 = Some s3
    /\ child s3 = Some inst3
    /\ Firestore.collection (db s3) "messages"
       = Firestore.collection (db s) "messages" ++ [d]
    /\ ChatBox.messages inst3 = ChatBox.messages inst1.
Proof.
  intros Hreach [inst Hchild] Hlen _ Hall.
  pose proof (reachable_in_sync s Hreach) as Hsync.
  pose proof (Stream.listening_in_sync s inst Hsync Hchild) as Hlisten.
  destruct (step SnapshotDelivered s) as [s1 |] eqn:H1.
  2: { cbn [step] in H1. rewrite Hchild, Hlisten in H1. discriminate. }
  destruct (Stream.snapshot_delivered s s1 Hsync H1) as (inst0 & _ & Hc1 & Hst1 & Hdb1).
  pose proof (reach_step s _ s1 Hreach H1) as Hreach1.
  destruct (step (MessageAdded d) s1) as [s2 |] eqn:H2; [| discriminate].
  pose proof (reach_step s1 _ s2 Hreach1 H2) as Hreach2.
  assert (Hc2 : child s2 = child s1 /\
                Firestore.collection (db s2) "messages"
                = Firestore.collection (db s) "messages" ++ [d]).
  { cbn [step] in H2. injection H2 as <-. simpl. rewrite Hdb1. split; reflexivity. }
  destruct Hc2 as [Hc2 Hcoll2]. rewrite Hc1 in Hc2.
  pose proof (reachable_in_sync s2 Hreach2) as Hsync2.
  destruct (step SnapshotDelivered s2) as [s3 |] eqn:H3.
  2: { cbn [step] in H3.
       rewrite Hc2, (Stream.listening_in_sync s2 _ Hsync2 Hc2) in H3. discriminate. }
  destruct (Stream.snapshot_delivered s2 s3 Hsync2 H3) as (inst2 & _ & Hc3 & _ & Hdb3).
  do 5 eexists.
  split; [reflexivity |].
  split; [exact Hc1 |].
  split; [exact H2 |].
  split; [exact H3 |].
  split; [exact Hc3 |].
  split; [rewrite Hdb3; exact Hcoll2 |].
  simpl. rewrite Hcoll2. apply window_of_newest; assumption.
Qed.

Lemma new_message_not_shown_after_ten_witness :
  let s := after (load_open_deliver [ride 1]) (boot user (store eleven)) in
  let d := message "m12" 12 1 in
  exists s1 s2 s3 inst1 inst3,
    step SnapshotDelivered s = Some s1
    /\ child s1 = Some inst1
    /\ step (MessageAdded d) s1 = Some s2
    /\ step SnapshotDelivered s2 = Some s3
    /\ child s3 = Some inst3
    /\ Firestore.collection (db s3) "messages"
       = Firestore.collection (db s) "messages" ++ [d]
    /\ ChatBox.messages inst3 = ChatBox.messages inst1.
Proof.
  apply (new_message_not_shown_after_ten
           (after (load_open_deliver [ride 1]) (boot user (store eleven)))
           (message "m12" 12 1)).
  - exact (after_reachable _ _ (reach_boot user (store eleven))).
  - eexists. reflexivity.
  - vm_compute. lia.
  - vm_compute. intros Hin.
    repeat (destruct Hin as [Hin | Hin]; [discriminate Hin |]). exact Hin.
  - intros x Hx. vm_compute in Hx.
    repeat (destruct Hx as [<- | Hx]; [reflexivity |]). destruct Hx.
Defined.

(** Documents of the same time are listed by document id, wherever they
    stand in the collection. *)
Example ties_by_document_id :
  map ChatBox.id
      (ChatBox.window_of [message "b" 5 1; message "a" 5 1; message "c" 5 1])
  = ["a"; "b"; "c"].
Proof. reflexivity. Qed.

(** Ten messages and a late one with the time of the tenth and a smaller
    id: it takes the place of the tenth. *)
Example tie_with_smaller_id_shows :
  map ChatBox.id
      (ChatBox.window_of
         ([message "m01" 1 1; message "m02" 2 1; message "m03" 3 1; message "m04" 4 1;
           message "m05" 5 1; message "m06" 6 1; message "m07" 7 1; message "m08" 8 1;
           message "m09" 9 1; message "m10" 10 1] ++ [message "a00" 10 1]))
  = ["m01"; "m02"; "m03"; "m04"; "m05"; "m06"; "m07"; "m08"; "m09"; "a00"].
Proof. reflexivity. Qed.

(** Two times within the same microsecond are the same time in the store. *)
Example same_microsecond_is_a_tie :
  let at_ns (doc_id : string) (ns : Z) :=
    {| Firestore.doc_id := doc_id;
       Firestore.data :=
         {| Firestore.text := "hello"; Firestore.name := "Sam";
            Firestore.avatar := "sam.png";
            Firestore.createdAt := {| Firestore.seconds := 7;
                                      Firestore.nanoseconds := ns |};
            Firestore.uid := "u1"; Firestore.rideId := Some 1 |} |} in
  map (fun m => (ChatBox.id m, Firestore.nanoseconds (ChatBox.createdAt m)))
      (ChatBox.window_of [at_ns "b" 1200; at_ns "a" 1900; at_ns "c" 2000])
  = [("a", 1000); ("b", 1000); ("c", 2000)].
Proof. reflexivity. Qed.

End WindowFreeze.

(** * Properties of AdminPanel *)

Module AdminFetch.

Import AdminPanel AdminSamples.

Lemma insert_unverified (x : User.t) (l : list User.t) :
  User.verified x = false -> sort_insert by_verified x l = x :: l.
Proof.
  intros Hx. destruct l as [| y ys]; simpl; [reflexivity |].
  unfold by_verified, Number. rewrite Hx.
  destruct (User.verified y); reflexivity.
Qed.

Lemma insert_verified (x : User.t) (us vs : list User.t) :
  User.verified x = true ->
  Forall (fun u => User.verified u = false) us ->
  Forall (fun v => User.verified v = true) vs ->
  sort_insert by_verified x (us ++ vs) = us ++ x :: vs.
Proof.
  intros Hx Hus Hvs. induction Hus as [| u us Hu Hus IH]; simpl.
  - destruct vs as [| v vs']; simpl; [reflexivity |].
    inversion Hvs as [| ? ? Hv _]; subst.
    unfold by_verified, Number. rewrite Hx, Hv. reflexivity.
  - unfold by_verified at 1. unfold Number. rewrite Hx, Hu. simpl.
    rewrite IH. reflexivity.
Qed.

(** The sort of [fetchUsers]: the unverified users, then the verified
    ones, each group in the order of the response. *)
Lemma sort_by_verified (l : list User.t) :
  sort by_verified l
  = filter (fun u => negb (User.verified u)) l ++ filter User.verified l.
Proof.
  induction l as [| x xs IH]; simpl; [reflexivity |].
  rewrite IH. destruct (User.verified x) eqn:Hx; simpl.
  - apply insert_verified; [exact Hx | |]; apply Forall_forall; intros u Hu;
      apply filter_In in Hu; destruct Hu as [_ Hu].
    + now apply negb_true_iff in Hu.
    + exact Hu.
  - apply insert_unverified, Hx.
Qed.

(** X8.  After a successful [fetchUsers] the list shows the unverified
    users first and the verified users after them, each group in the order
    of the response; it is a rearrangement of the response, the loading flag
    is off and the drivers and rides are untouched. *)
Theorem fetchUsers_unverified_first
  (r : Response (list User.t)) (data : list User.t) (st : State) :
  ok r = true ->
  json r = Some data ->
  let st' := fetchUsers (Resolved r) st in
  users st' = filter (fun u => negb (User.verified u)) data ++ filter User.verified data
  /\ Permutation (users st') data
  /\ loadingUsers st' = false
  /\ drivers st' = drivers st
  /\ rides st' = rides st.
Proof.
  intros Hok Hjson st'. subst st'.
  unfold fetchUsers, try_catch_finally, Exn.bind, await, await_json, Exn.modify, Exn.ret.
  simpl. rewrite Hok, Hjson. simpl.
  rewrite sort_by_verified.
  repeat split.
  clear. induction data as [| x xs IH]; simpl; [constructor |].
  destruct (User.verified x); simpl.
  - apply Permutation_sym. apply Permutation_cons_app.
    apply Permutation_sym. exact IH.
  - constructor. exact IH.
Qed.

Lemma fetchUsers_unverified_first_witness :
  let data := [user 1 "Ann" true; user 2 "Bob" false; user 3 "Cat" true;
               user 4 "Dan" false] in
  let st' := fetchUsers (ok_response data) initial in
  users st' = filter (fun u => negb (User.verified u)) data ++ filter User.verified data
  /\ Permutation (users st') data
  /\ loadingUsers st' = false
  /\ drivers st' = drivers initial
  /\ rides st' = rides initial.
Proof.
  exact (fetchUsers_unverified_first
           {| status := 200;
              json := Some [user 1 "Ann" true; user 2 "Bob" false; user 3 "Cat" true;
                            user 4 "Dan" false] |}
           [user 1 "Ann" true; user 2 "Bob" false; user 3 "Cat" true; user 4 "Dan" false]
           initial eq_refl eq_refl).
Defined.

(** X9.  Whatever the outcome of [fetchDrivers] and of [fetchUsers], the
    loading flag is off afterwards; the list changes only when the response
    is a success whose body parses, and no other state cell changes. *)
Theorem fetch_lists_on_every_path
  (fd : Fetched (list Driver.t)) (fu : Fetched (list User.t)) (st : State) :
  (let st' := fetchDrivers fd st in
   loadingDrivers st' = false
   /\ st' = setLoadingDrivers false (setDrivers (drivers st') st)
   /\ (drivers st' <> drivers st ->
       exists r, fd = Resolved r /\ ok r = true /\ json r = Some (drivers st')))
  /\ (let st' := fetchUsers fu st in
      loadingUsers st' = false
      /\ st' = setLoadingUsers false (setUsers (users st') st)
      /\ (users st' <> users st ->
          exists r data, fu = Resolved r /\ ok r = true /\ json r = Some data
                         /\ users st' = sort by_verified data)).
Proof.
  split.
  - unfold fetchDrivers, try_catch_finally, Exn.bind, await, await_json,
      Exn.modify, Exn.ret, Exn.throw.
    destruct fd as [| r]; simpl.
    + repeat split. intros H. congruence.
    + destruct (ok r) eqn:Hok; simpl.
      * destruct (json r) as [data |] eqn:Hj; simpl.
        -- repeat split. intros _. exists r. repeat split; assumption.
        -- repeat split. intros H. congruence.
      * repeat split. intros H. congruence.
  - unfold fetchUsers, try_catch_finally, Exn.bind, await, await_json,
      Exn.modify, Exn.ret, Exn.throw.
    destruct fu as [| r]; simpl.
    + repeat split. intros H. congruence.
    + destruct (ok r) eqn:Hok; simpl.
      * destruct (json r) as [data |] eqn:Hj; simpl.
        -- repeat split. intros _. exists r, data. repeat split; assumption.
        -- repeat split. intros H. congruence.
      * repeat split. intros H. congruence.
Qed.

End AdminFetch.

Module AdminRides.

Import AdminPanel AdminSamples.

Section Geocoding.

Variable LatLng : Type.
Variable JSON_parse : string -> option LatLng.
Variable answers : nat -> Leg -> LatLng -> option string.

Let parses := parses LatLng JSON_parse.
Let geocoded := geocoded LatLng JSON_parse answers.
Let Promise_all_map := Promise_all_map LatLng JSON_parse answers.
Let fetchRides := AdminPanel.fetchRides LatLng JSON_parse answers.

Let addressed := addressed LatLng JSON_parse answers.

Lemma Promise_all_map_resolves (jobs : list Ride.t) (n : nat) (st : State) :
  forallb parses jobs = true ->
  exists results,
    Promise_all_map n jobs st = (st, inr results)
    /\ map Ride.id results = map Ride.id jobs
    /\ map Ride.status results = map Ride.status jobs
    /\ forall k ride, nth_error jobs k = Some ride ->
         exists result, nth_error results k = Some result
                        /\ addressed (n + k) ride result.
Proof.
  revert n. induction jobs as [| ride rest IH]; intros n Hall; simpl in *.
  - exists []. repeat split. intros [| k] ride H; discriminate.
  - apply andb_true_iff in Hall. destruct Hall as [Hride Hrest].
    destruct (IH (S n) Hrest) as (rs & Hrun & Hids & Hstat & Hnth).
    unfold parses, AdminPanel.parses in Hride.
    unfold Promise_all_map in *. simpl.
    unfold Exn.bind at 1. unfold AdminPanel.geocoded.
    destruct (JSON_parse (Ride.pickupLocation ride)) as [p |] eqn:Hp; [| discriminate].
    destruct (JSON_parse (Ride.dropoffLocation ride)) as [d |] eqn:Hd; [| discriminate].
    unfold Exn.ret at 1. unfold Exn.bind. rewrite Hrun. unfold Exn.ret.
    eexists. split; [reflexivity |].
    split; [simpl; rewrite Hids; reflexivity |].
    split; [simpl; rewrite Hstat; reflexivity |].
    intros [| k] ride' Hk; simpl in Hk.
    + injection Hk as <-. eexists. split; [reflexivity |].
      exists p, d. rewrite Nat.add_0_r. repeat split; assumption.
    + destruct (Hnth k ride' Hk) as (result & Hres & Haddr).
      exists result. split; [exact Hres |].
      replace (n + S k)%nat with (S n + k)%nat by lia. exact Haddr.
Qed.

Lemma Promise_all_map_rejects (jobs : list Ride.t) (n : nat) (st : State) :
  forallb parses jobs = false ->
  Promise_all_map n jobs st = (st, inl SyntaxError).
Proof.
  revert n. induction jobs as [| ride rest IH]; intros n Hall; simpl in *.
  - discriminate.
  - unfold Promise_all_map in *. simpl.
    unfold Exn.bind at 1. unfold AdminPanel.geocoded.
    unfold parses, AdminPanel.parses in Hall.
    destruct (JSON_parse (Ride.pickupLocation ride)) as [p |]; [| reflexivity].
    destruct (JSON_parse (Ride.dropoffLocation ride)) as [d |]; [| reflexivity].
    simpl in Hall. unfold Exn.ret at 1. unfold Exn.bind.
    rewrite (IH (S n) Hall). reflexivity.
Qed.

Lemma fetchRides_resolved (r : Response (list Ride.t)) (st : State) :
  fetchRides (Resolved r) st
  = setLoadingRides false
      (if ok r then
         match json r with
         | Some data =>
             match Promise_all_map 0 (filter active data) (setLoadingRides true st) with
             | (st1, inr results) => setRides results st1
             | (st1, inl _) => st1
             end
         | None => setLoadingRides true st
         end
       else setLoadingRides true st).
Proof.
  unfold fetchRides, AdminPanel.fetchRides, try_catch_finally, await, await_json,
    Exn.bind, Exn.modify, Exn.ret, Exn.throw, Promise_all_map.
  destruct (ok r); [| reflexivity].
  destruct (json r) as [data |]; [| reflexivity].
  destruct (AdminPanel.Promise_all_map LatLng JSON_parse answers 0 (filter active data)
              (setLoadingRides true st)) as [st1 [e | results]]; reflexivity.
Qed.


(** X11.  [fetchRides] is all or nothing: when the request fails, or the
    body is not JSON, or one location of one active ride is not JSON, the
    list of rides and every other cell are as they were, and the loading
    flag is off. *)
Theorem fetchRides_all_or_nothing (f : Fetched (list Ride.t)) (st : State) :
  (f = Rejected
   \/ exists r, f = Resolved r
                /\ (ok r = false
                    \/ json r = None
                    \/ exists data, json r = Some data
                                    /\ forallb parses (filter active data) = false)) ->
  fetchRides f st = setLoadingRides false st.
Proof.
  intros [-> | (r & -> & H)].
  - destruct st; reflexivity.
  - rewrite fetchRides_resolved.
    destruct H as [Hok | H]; [rewrite Hok; destruct st; reflexivity |].
    destruct (ok r); [| destruct st; reflexivity].
    destruct H as [Hj | (data & Hj & Hall)]; rewrite Hj.
    + destruct st; reflexivity.
    + rewrite (Promise_all_map_rejects (filter active data) 0
                 (setLoadingRides true st) Hall).
      destruct st; reflexivity.
Qed.

End Geocoding.


Lemma fetchRides_all_or_nothing_witness :
  AdminPanel.fetchRides string parse_location pickups_only
    (ok_response [trip 1 "InProgress" "p1" "d1"; trip 2 "Scheduled" "p2" ""])
    (setRides [trip 9 "Requested" "here" "there"] initial)
  = setLoadingRides false (setRides [trip 9 "Requested" "here" "there"] initial).
Proof.
  apply (fetchRides_all_or_nothing string parse_location pickups_only).
  right. eexists. split; [reflexivity |].
  right. right. eexists. split; reflexivity.
Defined.

End AdminRides.

Module AdminSelection.

Import AdminPanel AdminSamples.

Lemma toggled_twice (id : Z) (v : option Z) :
  toggled id (toggled id v) = v <-> v = None \/ v = Some id.
Proof.
  unfold toggled. destruct v as [p |].
  - destruct (p =? id) eqn:Hp.
    + apply Z.eqb_eq in Hp. subst p. intuition.
    + rewrite Z.eqb_refl. apply Z.eqb_neq in Hp.
      split; [discriminate | intros [H | H]; [discriminate | congruence]].
  - rewrite Z.eqb_refl. intuition.
Qed.

Lemma checked_at_most_once (v : option Z) (l : list Driver.t) :
  NoDup (map Driver.id l) ->
  (List.length (filter (fun d => selects v (Driver.id d)) l) <= 1)%nat.
Proof.
  induction l as [| d ds IH]; intros Hnd; simpl; [lia |].
  inversion Hnd as [| x xs Hnotin Hnd']; subst. specialize (IH Hnd').
  destruct (selects v (Driver.id d)) eqn:Hd; simpl; [| exact IH].
  assert (Hnone : filter (fun d0 => selects v (Driver.id d0)) ds = []).
  { destruct (filter (fun d0 => selects v (Driver.id d0)) ds) as [| e es] eqn:Hf;
      [reflexivity |].
    exfalso. assert (He : In e (e :: es)) by (left; reflexivity).
    rewrite <- Hf in He. apply filter_In in He. destruct He as [Hin He].
    unfold selects in *. destruct v as [m |]; [| discriminate].
    apply Z.eqb_eq in Hd. apply Z.eqb_eq in He.
    apply Hnotin. rewrite <- Hd, He. apply in_map, Hin. }
  rewrite Hnone. simpl. lia.
Qed.

(** X12.  A click on a driver's checkbox selects that driver, unless it was
    the selected one, in which case nothing is selected.  Two clicks on the
    same checkbox give back the state exactly when the selection was empty
    or on that driver; a click on another checkbox moves the selection.
    With distinct driver ids at most one row is checked. *)
Theorem checkbox_selects_one (id : Z) (st : State) :
  selectedDriverId (handleCheckboxChange id st)
  = (if selects (selectedDriverId st) id then None else Some id)
  /\ (handleCheckboxChange id (handleCheckboxChange id st) = st
      <-> selectedDriverId st = None \/ selectedDriverId st = Some id)
  /\ (forall other, other <> id ->
      selectedDriverId (handleCheckboxChange other (handleCheckboxChange id st))
      = Some other)
  /\ (NoDup (map Driver.id (drivers st)) ->
      (List.length (filter checked (driverRows (handleCheckboxChange id st))) <= 1)%nat).
Proof.
  split; [| split; [| split]].
  - unfold handleCheckboxChange, toggled, selects. simpl.
    destruct (selectedDriverId st); reflexivity.
  - pose proof (toggled_twice id (selectedDriverId st)) as H.
    destruct st. unfold handleCheckboxChange, setSelectedDriverId in *. simpl in *.
    split.
    + intros Heq. apply H. congruence.
    + intros Hsel. apply H in Hsel. rewrite Hsel. reflexivity.
  - intros other Hne. unfold handleCheckboxChange, toggled. simpl.
    destruct (selectedDriverId st) as [p |].
    + destruct (p =? id); [reflexivity |].
      destruct (id =? other) eqn:Hio; [| reflexivity].
      apply Z.eqb_eq in Hio. congruence.
    + destruct (id =? other) eqn:Hio; [| reflexivity].
      apply Z.eqb_eq in Hio. congruence.
  - intros Hnd. unfold driverRows. simpl.
    destruct (loadingDrivers st); simpl; [lia |].
    match goal with
    | |- (List.length (filter checked (map ?f ?l)) <= 1)%nat =>
        assert (Hlen : List.length (filter checked (map f l))
                       = List.length
                           (filter (fun d => selects (toggled id (selectedDriverId st))
                                                     (Driver.id d)) l))
    end.
    { clear. induction (drivers st) as [| d ds IH]; simpl; [reflexivity |].
      destruct (selects _ (Driver.id d)); simpl; rewrite IH; reflexivity. }
    rewrite Hlen. apply checked_at_most_once, Hnd.
Qed.

(** X13.  A confirmed delete that succeeds writes the list of drivers of
    the render in which Delete was clicked, without the selected driver and
    in the same order, and clears the selection.  A delete that is declined,
    rejected or refused by the server changes nothing. *)
Theorem handleDelete_outcome
  (rendered st : State) (x : Z) (confirmed : bool) (f : Fetched unit) :
  selectedDriverId rendered = Some x ->
  let st' := handleDelete rendered confirmed f st in
  (confirmed = true -> (exists r, f = Resolved r /\ ok r = true) ->
   drivers st' = filter (fun d => negb (Driver.id d =? x)) (drivers rendered)
   /\ ~ In x (map Driver.id (drivers st'))
   /\ (forall d, In d (drivers rendered) -> Driver.id d <> x -> In d (drivers st'))
   /\ selectedDriverId st' = None
   /\ st' = setSelectedDriverId None (setDrivers (drivers st') st))
  /\ (confirmed = false \/ f = Rejected \/ (exists r, f = Resolved r /\ ok r = false) ->
      st' = st).
Proof.
  intros Hsel st'. subst st'. unfold handleDelete. rewrite Hsel.
  split.
  - intros -> (r & -> & Hok).
    unfold try_catch, Exn.bind, await, Exn.ret, Exn.modify. simpl. rewrite Hok. simpl.
    split; [reflexivity |].
    split.
    { intros Hin. apply in_map_iff in Hin. destruct Hin as (d & Hd & Hin).
      apply filter_In in Hin. destruct Hin as [_ Hneq].
      apply negb_true_iff, Z.eqb_neq in Hneq. congruence. }
    split.
    { intros d Hin Hneq. apply filter_In. split; [exact Hin |].
      apply negb_true_iff, Z.eqb_neq. exact Hneq. }
    split; reflexivity.
  - intros [-> | [-> | (r & -> & Hok)]].
    + reflexivity.
    + destruct confirmed; reflexivity.
    + destruct confirmed; [| reflexivity].
      unfold try_catch, Exn.bind, await, Exn.ret. simpl. rewrite Hok. reflexivity.
Qed.

Lemma handleDelete_outcome_witness :
  let rendered := setSelectedDriverId (Some 2) (setDrivers three_drivers initial) in
  let st' := handleDelete rendered true done rendered in
  (true = true -> (exists r, done = Resolved r /\ ok r = true) ->
   drivers st' = filter (fun d => negb (Driver.id d =? 2)) (drivers rendered)
   /\ ~ In 2 (map Driver.id (drivers st'))
   /\ (forall d, In d (drivers rendered) -> Driver.id d <> 2 -> In d (drivers st'))
   /\ selectedDriverId st' = None
   /\ st' = setSelectedDriverId None (setDrivers (drivers st') rendered))
  /\ (true = false \/ done = Rejected \/ (exists r, done = Resolved r /\ ok r = false) ->
      st' = rendered).
Proof.
  exact (handleDelete_outcome
           (setSelectedDriverId (Some 2) (setDrivers three_drivers initial))
           (setSelectedDriverId (Some 2) (setDrivers three_drivers initial))
           2 true done eq_refl).
Defined.

End AdminSelection.

Module AdminHeader.

Import AdminPanel.

Lemma split_cons (sep : ascii) (s : string) :
  exists w ws, split sep s = w :: ws.
Proof.
  destruct s as [| c rest]; simpl.
  - eauto.
  - destruct (Ascii.eqb c sep); [eauto |].
    destruct (split sep rest); eauto.
Qed.

Lemma join_cons (sep a b : string) (l : list string) :
  join sep (a :: b :: l) = (a ++ sep ++ join sep (b :: l))%string.
Proof. reflexivity. Qed.

(** [split] and [join] are inverse on the text. *)
Lemma join_split (sep : ascii) (s : string) :
  join (String sep EmptyString) (split sep s) = s.
Proof.
  induction s as [| c rest IH].
  - reflexivity.
  - cbn [split]. destruct (split_cons sep rest) as (w & ws & Hs).
    rewrite Hs in *.
    destruct (Ascii.eqb c sep) eqn:Hc.
    + apply Ascii.eqb_eq in Hc. subst c.
      rewrite join_cons, IH. reflexivity.
    + destruct ws as [| w' ws'].
      * simpl in *. rewrite IH. reflexivity.
      * rewrite join_cons in *. rewrite <- IH. reflexivity.
Qed.

(** The first piece: free of the separator, and followed in the text by
    nothing or by the separator. *)
Lemma split_head (sep : ascii) (s : string) :
  let w := hd EmptyString (split sep s) in
  (forall c, In c (list_ascii_of_string w) -> c <> sep)
  /\ exists rest, s = (w ++ rest)%string
                  /\ (rest = EmptyString \/ exists r, rest = String sep r).
Proof.
  induction s as [| c s' IH]; cbn [split].
  - simpl. split; [intros c [] |]. exists EmptyString. split; [reflexivity | left; reflexivity].
  - destruct (Ascii.eqb c sep) eqn:Hc.
    + apply Ascii.eqb_eq in Hc. subst c. simpl.
      split; [intros c [] |]. exists (String sep s'). split; [reflexivity |].
      right. exists s'. reflexivity.
    + apply Ascii.eqb_neq in Hc.
      destruct (split_cons sep s') as (w & ws & Hs). rewrite Hs in *. simpl in *.
      destruct IH as [Hfree (rest & Heq & Hrest)].
      split.
      * intros c' [<- | Hin]; [exact Hc | exact (Hfree c' Hin)].
      * exists rest. split; [rewrite Heq at 1; reflexivity | exact Hrest].
Qed.

(** X18.  The header shows the admin's name up to its first space: the
    text shown contains no space, the name is that text followed by nothing
    or by a space and more, and a name without a space is shown whole. *)
Theorem header_shows_first_word (st : State) :
  (forall c, In c (list_ascii_of_string (header_name st)) -> c <> " "%char)
  /\ (exists rest,
        adminName st = (header_name st ++ rest)%string
        /\ (rest = EmptyString \/ exists r, rest = String " " r))
  /\ ((forall c, In c (list_ascii_of_string (adminName st)) -> c <> " "%char) ->
      header_name st = adminName st)
  /\ header_name initial = "Admin".
Proof.
  unfold header_name.
  destruct (split_head " " (adminName st)) as [Hfree (rest & Heq & Hrest)].
  split; [exact Hfree |].
  split; [exists rest; split; assumption |].
  split; [| reflexivity].
  intros Hnospace.
  destruct Hrest as [-> | (r & ->)].
  - rewrite Heq at 2. clear.
    induction (hd EmptyString (split " " (adminName st))); simpl; congruence.
  - exfalso. apply (Hnospace " "%char); [| reflexivity].
    rewrite Heq. clear.
    induction (hd EmptyString (split " " (adminName st))) as [| c w IH]; simpl.
    + left. reflexivity.
    + right. exact IH.
Qed.

End AdminHeader.

Module AdminConsole.

Import AdminPanel AdminSamples Admin.

Section Console.

Variable LatLng : Type.
Variable JSON_parse : string -> option LatLng.

Let System := Admin.System.
Let step := Admin.step LatLng JSON_parse.
Let run := Admin.run LatLng JSON_parse.
Let reachable := Admin.reachable LatLng JSON_parse.

Lemma Promise_all_map_state
  (answers : nat -> Leg -> LatLng -> option string)
  (jobs : list Ride.t) (n : nat) (st : State) :
  fst (Promise_all_map LatLng JSON_parse answers n jobs st) = st.
Proof.
  destruct (forallb (parses LatLng JSON_parse) jobs) eqn:Hall.
  - destruct (AdminRides.Promise_all_map_resolves LatLng JSON_parse answers jobs n st Hall)
      as (rs & -> & _). reflexivity.
  - rewrite (AdminRides.Promise_all_map_rejects LatLng JSON_parse answers jobs n st Hall).
    reflexivity.
Qed.

Lemma fetchDrivers_nav f st : same_nav st (fetchDrivers f st).
Proof.
  unfold same_nav, fetchDrivers, try_catch_finally, Exn.bind, await, await_json,
    Exn.modify, Exn.ret, Exn.throw.
  destruct f as [| r]; simpl; [split; reflexivity |].
  destruct (ok r); simpl; [| split; reflexivity].
  destruct (json r); simpl; split; reflexivity.
Qed.

Lemma fetchUsers_nav f st : same_nav st (fetchUsers f st).
Proof.
  unfold same_nav, fetchUsers, try_catch_finally, Exn.bind, await, await_json,
    Exn.modify, Exn.ret, Exn.throw.
  destruct f as [| r]; simpl; [split; reflexivity |].
  destruct (ok r); simpl; [| split; reflexivity].
  destruct (json r); simpl; split; reflexivity.
Qed.

Lemma fetchRides_nav answers f st :
  same_nav st (fetchRides LatLng JSON_parse answers f st).
Proof.
  destruct f as [| r].
  - split; reflexivity.
  - rewrite AdminRides.fetchRides_resolved.
    destruct (ok r); [| split; reflexivity].
    destruct (json r) as [data |]; [| split; reflexivity].
    pose proof (Promise_all_map_state answers (filter active data) 0
                  (setLoadingRides true st)) as Hst.
    destruct (Promise_all_map LatLng JSON_parse answers 0 (filter active data)
                (setLoadingRides true st)) as [st1 [e | rs]];
      simpl in Hst; subst st1; split; reflexivity.
Qed.

Lemma handleDelete_nav rendered f st : same_nav st (handleDelete rendered true f st).
Proof.
  unfold same_nav, handleDelete, try_catch, Exn.bind, await, Exn.modify, Exn.ret, Exn.throw.
  destruct (selectedDriverId rendered); [| split; reflexivity].
  destruct f as [| r]; simpl; [split; reflexivity |].
  destruct (ok r); simpl; split; reflexivity.
Qed.

Lemma handleCancelRide_nav rendered x f st :
  same_nav st (handleCancelRide rendered x f st).
Proof.
  unfold same_nav, handleCancelRide, try_catch, Exn.bind, await, Exn.modify, Exn.ret,
    Exn.throw.
  destruct f as [| r]; simpl; [split; reflexivity |].
  destruct (ok r); simpl; split; reflexivity.
Qed.

(** What a step does to the panel shown and to the admin's identity. *)
Lemma step_nav (e : Event LatLng) (s s' : System) :
  step e s = Some s' ->
  (same_nav (state s) (state s') /\ adminPending s' = adminPending s)
  \/ (adminPending s = true /\ adminPending s' = false
      /\ currentPanel (state s') = currentPanel (state s))
  \/ (exists p, navButton p (state s) = true
                /\ state s' = setCurrentPanel p (state s)
                /\ adminPending s' = adminPending s).
Proof.
  intros Hstep. unfold step in Hstep.
  destruct e; cbn [Admin.step] in Hstep.
  - destruct (driversPending s); [| discriminate]. injection Hstep as <-.
    left. split; [apply fetchDrivers_nav | reflexivity].
  - destruct (usersPending s); [| discriminate]. injection Hstep as <-.
    left. split; [apply fetchUsers_nav | reflexivity].
  - destruct (adminPending s) eqn:Hp; [| discriminate]. injection Hstep as <-.
    right. left. repeat split.
    unfold fetchAdminDetails, try_catch, Exn.bind, Exn.modify, Exn.ret, Exn.throw.
    destruct answer; reflexivity.
  - injection Hstep as <-. left. repeat split.
  - destruct (ridesInFlight s); [discriminate |]. injection Hstep as <-.
    left. split; [apply fetchRides_nav | reflexivity].
  - destruct (navButton p (state s)) eqn:Hb; [| discriminate]. injection Hstep as <-.
    right. right. exists p. repeat split. exact Hb.
  - destruct (shows DriversPanel (state s)); [| discriminate].
    destruct (nth_error (driverRows (state s)) n); [| discriminate].
    injection Hstep as <-. left. repeat split.
  - destruct (shows DriversPanel (state s)); [| discriminate].
    destruct (nth_error (driverRows (state s)) n) as [row |]; [| discriminate].
    destruct (buttons row); [| discriminate].
    injection Hstep as <-. left. repeat split.
  - destruct (nth_error (deletes s) k); [| discriminate]. injection Hstep as <-.
    left. split; [apply handleDelete_nav | reflexivity].
  - destruct (shows RidesPanel (state s)); [| discriminate].
    destruct (nth_error (rideCards (state s)) n); [| discriminate].
    injection Hstep as <-. left. repeat split.
  - destruct (nth_error (cancels s) k) as [[rendered x] |]; [| discriminate].
    injection Hstep as <-.
    left. split; [apply handleCancelRide_nav | reflexivity].
Qed.

Lemma reachable_nav (s : System) :
  reachable s ->
  (adminPending s = true -> adminId (state s) = None)
  /\ (In (currentPanel (state s)) ["users"; "drivers"; "rides"]
      \/ (currentPanel (state s) = "dashboard" /\ dashboardButton (state s) = true)).
Proof.
  induction 1 as [| s e s' Hreach [IHp IHc] Hstep].
  - split; [reflexivity | left; left; reflexivity].
  - destruct (step_nav e s s' Hstep)
      as [[[Hc Ha] Hp] | [(Hp & Hp' & Hc) | (p & Hb & -> & Hp)]].
    + unfold dashboardButton in *. rewrite Hc, Ha, Hp. split; assumption.
    + split; [intros H; congruence |].
      rewrite Hc. destruct IHc as [IHc | [_ Hd]]; [left; exact IHc |].
      unfold dashboardButton in Hd. rewrite (IHp Hp) in Hd. discriminate.
    + rewrite Hp. split; [exact IHp |]. simpl.
      unfold navButton in Hb.
      repeat (apply orb_true_iff in Hb; destruct Hb as [Hb | Hb]).
      * apply String.eqb_eq in Hb. subst p. left. right. right. left. reflexivity.
      * apply String.eqb_eq in Hb. subst p. left. right. left. reflexivity.
      * apply String.eqb_eq in Hb. subst p. left. left. reflexivity.
      * apply andb_true_iff in Hb. destruct Hb as [Hb Hd].
        apply String.eqb_eq in Hb. subst p. right. split; [reflexivity | exact Hd].
Qed.

(** X16.  The Dashboard is shown only to the admins with id 2 or 3. *)
Theorem dashboard_only_for_admins_2_and_3 (s : System) :
  reachable s ->
  In DashboardPanel (main (state s)) ->
  adminId (state s) = Some 2 \/ adminId (state s) = Some 3.
Proof.
  intros Hreach Hin.
  destruct (reachable_nav s Hreach) as [_ [Hc | [_ Hd]]].
  - exfalso. unfold main in Hin.
    destruct Hc as [Hc | [Hc | [Hc | []]]]; rewrite <- Hc in Hin; simpl in Hin;
      repeat (destruct Hin as [Hin | Hin]; try discriminate); exact Hin.
  - unfold dashboardButton in Hd. destruct (adminId (state s)) as [n |]; [| discriminate].
    apply orb_true_iff in Hd. destruct Hd as [Hd | Hd]; apply Z.eqb_eq in Hd; subst; auto.
Qed.

(** X17.  At every moment [<main>] shows exactly one of the four panels. *)
Theorem one_panel_shown (s : System) :
  reachable s ->
  exists m, main (state s) = [m].
Proof.
  intros Hreach.
  destruct (reachable_nav s Hreach) as [_ [Hc | [Hc _]]]; unfold main.
  - destruct Hc as [Hc | [Hc | [Hc | []]]]; rewrite <- Hc; simpl; eauto.
  - rewrite Hc. simpl. eauto.
Qed.

Lemma admin_run_reachable (es : list (Event LatLng)) (s s' : System) :
  reachable s -> run es s = Some s' -> reachable s'.
Proof.
  revert s. induction es as [| e es IH]; intros s Hs Hrun; simpl in Hrun.
  - injection Hrun as <-. exact Hs.
  - unfold run in Hrun. cbn [Admin.run] in Hrun.
    destruct (Admin.step LatLng JSON_parse e s) as [s1 |] eqn:Hstep; [| discriminate].
    exact (IH s1 (Admin.reach_step LatLng JSON_parse s e s1 Hs Hstep) Hrun).
Qed.

Lemma shows_drivers (st : State) :
  currentPanel st = "drivers" -> shows DriversPanel st = true.
Proof. unfold shows, main. intros ->. reflexivity. Qed.

Lemma shows_rides (st : State) :
  currentPanel st = "rides" -> shows RidesPanel st = true.
Proof. unfold shows, main. intros ->. reflexivity. Qed.

Lemma driverRows_nth (st : State) (n : nat) (d : Driver.t) :
  loadingDrivers st = false ->
  nth_error (drivers st) n = Some d ->
  nth_error (driverRows st) n
  = Some {| row_key := Driver.id d;
            checked := selects (selectedDriverId st) (Driver.id d);
            buttons := selects (selectedDriverId st) (Driver.id d) |}.
Proof.
  intros Hl Hn. unfold driverRows. rewrite Hl, nth_error_map, Hn. reflexivity.
Qed.

(** X14.  Two deletes in flight at once undo the first: when Delete is
    clicked for a driver, then, before the answer arrives, another driver is
    checked and deleted, the second answer writes the list of its own
    render, in which the first driver still is.  The first driver, removed
    when the first answer came, is listed again. *)
Theorem overlapping_deletes_bring_back
  (s : System) (i j : nat) (da db : Driver.t) (ra rb : Response unit) :
  currentPanel (state s) = "drivers" ->
  loadingDrivers (state s) = false ->
  nth_error (drivers (state s)) i = Some da ->
  nth_error (drivers (state s)) j = Some db ->
  Driver.id da <> Driver.id db ->
  selectedDriverId (state s) = Some (Driver.id da) ->
  deletes s = [] ->
  ok ra = true ->
  ok rb = true ->
  exists s1 s2,
    run [ClickDelete LatLng i true; ClickCheckbox LatLng j; ClickDelete LatLng j true;
         DeleteSettle LatLng 0 (Resolved ra)] s = Some s1
    /\ ~ In (Driver.id da) (map Driver.id (drivers (state s1)))
    /\ step (DeleteSettle LatLng 0 (Resolved rb)) s1 = Some s2
    /\ drivers (state s2)
       = filter (fun d => negb (Driver.id d =? Driver.id db)) (drivers (state s))
    /\ In da (drivers (state s2))
    /\ deletes s2 = [].
Proof.
  intros Hpanel Hload Hi Hj Hne Hsel Hdel Hra Hrb.
  destruct s as [st pd pu pa rf dl cl]. simpl in *. subst dl.
  set (st_b := handleCheckboxChange (Driver.id db) st).
  assert (Hsel_b : selectedDriverId st_b = Some (Driver.id db)).
  { unfold st_b, handleCheckboxChange, toggled. simpl. rewrite Hsel.
    destruct (Driver.id da =? Driver.id db) eqn:Heq; [| reflexivity].
    apply Z.eqb_eq in Heq. contradiction. }
  unfold run, step. cbn [Admin.run Admin.step Admin.state Admin.deletes].
  rewrite (shows_drivers st Hpanel), (driverRows_nth st i da Hload Hi).
  cbn [buttons]. unfold selects at 1. rewrite Hsel, Z.eqb_refl.
  cbn [Admin.step Admin.state Admin.deletes app].
  rewrite (shows_drivers st Hpanel), (driverRows_nth st j db Hload Hj).
  cbn [row_key with_state Admin.step Admin.state Admin.deletes].
  fold st_b.
  rewrite (shows_drivers st_b Hpanel), (driverRows_nth st_b j db Hload Hj).
  cbn [buttons]. unfold selects at 1. rewrite Hsel_b, Z.eqb_refl.
  cbn [Admin.step Admin.state Admin.deletes app nth_error drop_nth].
  eexists. eexists.
  split; [reflexivity |].
  cbn [Admin.state Admin.deletes nth_error drop_nth].
  unfold handleDelete. rewrite Hsel, Hsel_b.
  unfold try_catch, Exn.bind, await, Exn.ret, Exn.modify. simpl negb.
  cbn [fst]. rewrite Hra, Hrb. cbn [fst drivers setDrivers setSelectedDriverId differs].
  split.
  { intros Hin. apply in_map_iff in Hin. destruct Hin as (d & Hd & Hin).
    apply filter_In in Hin. destruct Hin as [_ Hneq].
    apply negb_true_iff, Z.eqb_neq in Hneq. congruence. }
  split; [reflexivity |].
  split; [reflexivity |].
  split; [| reflexivity].
  apply filter_In. split.
  - exact (nth_error_In _ _ Hi).
  - apply negb_true_iff, Z.eqb_neq. exact Hne.
Qed.

(** X15.  A cancellation writes the list of rides of the render in which
    Cancel Ride was clicked, without the cancelled ride: whatever a poll
    that settled in between had put in the list is overwritten. *)
Theorem cancel_overwrites_poll
  (s : System) (n m : nat) (ride : Ride.t) (f : Fetched (list Ride.t))
  (answers : nat -> Leg -> LatLng -> option string) (r : Response unit) :
  currentPanel (state s) = "rides" ->
  loadingRides (state s) = false ->
  nth_error (rides (state s)) n = Some ride ->
  ridesInFlight s = S m ->
  cancels s = [] ->
  ok r = true ->
  exists s',
    run [ClickCancel LatLng n; RidesSettle LatLng f answers;
         CancelSettle LatLng 0 (Resolved r)] s = Some s'
    /\ rides (state s')
       = filter (fun x => negb (Ride.id x =? Ride.id ride)) (rides (state s))
    /\ ~ In (Ride.id ride) (map Ride.id (rides (state s')))
    /\ cancels s' = [].
Proof.
  intros Hpanel Hload Hn Hfl Hc Hok.
  destruct s as [st pd pu pa rf dl cl]. simpl in *. subst rf cl.
  unfold run, step. cbn [Admin.run Admin.step Admin.state Admin.cancels].
  rewrite (shows_rides st Hpanel). unfold rideCards at 1. rewrite Hload, Hn.
  cbn [Admin.run Admin.step Admin.state Admin.cancels Admin.ridesInFlight app
       nth_error drop_nth].
  eexists. split; [reflexivity |].
  cbn [Admin.state Admin.cancels].
  unfold handleCancelRide, try_catch, Exn.bind, await, Exn.ret, Exn.modify.
  cbn [fst]. rewrite Hok. cbn [fst rides setRides].
  split; [reflexivity |].
  split; [| reflexivity].
  intros Hin. apply in_map_iff in Hin. destruct Hin as (x & Hx & Hin).
  apply filter_In in Hin. destruct Hin as [_ Hneq].
  apply negb_true_iff, Z.eqb_neq in Hneq. congruence.
Qed.

End Console.

Lemma overlapping_deletes_bring_back_witness :
  exists s1 s2,
    Admin.run string parse_location
      [ClickDelete string 0 true; ClickCheckbox string 2; ClickDelete string 2 true;
       DeleteSettle string 0 done]
      (with_state (setSelectedDriverId (Some 1) (state drivers_loaded)) drivers_loaded)
    = Some s1
    /\ ~ In (Driver.id (driver 1 "Al")) (map Driver.id (drivers (state s1)))
    /\ Admin.step string parse_location (DeleteSettle string 0 done) s1 = Some s2
    /\ drivers (state s2)
       = filter (fun d => negb (Driver.id d =? Driver.id (driver 3 "Cy")))
                (drivers (state (with_state
                                   (setSelectedDriverId (Some 1) (state drivers_loaded))
                                   drivers_loaded)))
    /\ In (driver 1 "Al") (drivers (state s2))
    /\ deletes s2 = [].
Proof.
  apply (overlapping_deletes_bring_back string parse_location
           (with_state (setSelectedDriverId (Some 1) (state drivers_loaded)) drivers_loaded)
           0%nat 2%nat (driver 1 "Al") (driver 3 "Cy")
           {| status := 200; json := None |} {| status := 200; json := None |});
    try reflexivity.
  simpl. discriminate.
Defined.

Lemma cancel_overwrites_poll_witness :
  exists s',
    Admin.run string parse_location
      [ClickCancel string 0;
       RidesSettle string
         (ok_response [trip 1 "InProgress" "p1" "d1"; trip 5 "Scheduled" "p5" "d5"])
         pickups_only;
       CancelSettle string 0 done] rides_loaded = Some s'
    /\ rides (state s')
       = filter (fun x => negb (Ride.id x
                                =? Ride.id (trip 1 "InProgress" "Bay St" "Hill Rd")))
                (rides (state rides_loaded))
    /\ ~ In (Ride.id (trip 1 "InProgress" "Bay St" "Hill Rd"))
            (map Ride.id (rides (state s')))
    /\ cancels s' = [].
Proof.
  exact (cancel_overwrites_poll string parse_location rides_loaded 0%nat 0%nat
           (trip 1 "InProgress" "Bay St" "Hill Rd")
           (ok_response [trip 1 "InProgress" "p1" "d1"; trip 5 "Scheduled" "p5" "d5"])
           pickups_only {| status := 200; json := None |}
           eq_refl eq_refl eq_refl eq_refl eq_refl eq_refl).
Defined.

Lemma admin_after_reachable (es : list (Event string)) :
  Admin.reachable string parse_location (after es).
Proof.
  unfold after.
  destruct (Admin.run string parse_location es boot) as [s |] eqn:Hrun.
  - exact (admin_run_reachable string parse_location es boot s
             (Admin.reach_boot string parse_location) Hrun).
  - apply Admin.reach_boot.
Qed.

Lemma dashboard_only_for_admins_2_and_3_witness :
  let s := after [AdminSettle string (Some ada); ClickNav string "dashboard"] in
  adminId (state s) = Some 2 \/ adminId (state s) = Some 3.
Proof.
  apply (dashboard_only_for_admins_2_and_3 string parse_location
           (after [AdminSettle string (Some ada); ClickNav string "dashboard"])).
  - apply admin_after_reachable.
  - vm_compute. left. reflexivity.
Defined.

Lemma one_panel_shown_witness :
  exists m,
    main (state (after [TimerFires string; ClickNav string "rides";
                        DriversSettle string Rejected])) = [m].
Proof.
  exact (one_panel_shown string parse_location
           (after [TimerFires string; ClickNav string "rides";
                   DriversSettle string Rejected])
           (admin_after_reachable _)).
Defined.

End AdminConsole.
